(** * A TLS static file server: [http_server.py]

    The program is a module-level script: it builds an
    [http.server.HTTPServer] around [http.server.SimpleHTTPRequestHandler],
    wraps the listening socket in a server-side TLS context, prints one
    line and calls [serve_forever].  The script itself is embedded in
    [Module Script]; the CPython 3.11 library code it instantiates
    ([Lib/posixpath.py], [Lib/urllib/parse.py], [Lib/http/server.py],
    [Lib/socketserver.py], [ssl.SSLSocket.accept]) is embedded function by
    function in the modules before it, each definition naming the function
    it follows.  What lies below that code (the operating system, C codecs,
    the peers) enters as records of outcomes: [FileSystem], [Platform],
    [connection], [World].

    The file has the embedding first, then a concrete platform, directory
    tree and clients for the examples, then the predicates of the
    statements ([Module Props]), then the lemmas and theorems. *)

From Stdlib Require Import List NArith ZArith Bool String Ascii Lia.
From Stdlib Require Import DecimalString Permutation.
Import ListNotations.

Set Implicit Arguments.

(** ** Python [str] values

    A Python [str] is a sequence of Unicode code points. *)

Module PyStr.

Definition char := N.
Definition str := list char.

(** An ASCII literal of the source. *)
Definition lit (s : string) : str := map N_of_ascii (list_ascii_of_string s).

Definition slash : char := 47%N.
Definition dot : char := 46%N.
Definition percent : char := 37%N.
Definition question : char := 63%N.
Definition hash : char := 35%N.
Definition colon : char := 58%N.

Fixpoint str_eqb (a b : str) : bool :=
  match a, b with
  | [], [] => true
  | x :: a', y :: b' => N.eqb x y && str_eqb a' b'
  | _, _ => false
  end.

(** [c in s] for a one-character [c]. *)
Definition contains (c : char) (s : str) : bool := existsb (N.eqb c) s.

(** [s.split(c)] for a one-character separator: never empty. *)
Fixpoint split (c : char) (s : str) : list str :=
  match s with
  | [] => [[]]
  | x :: r =>
      if N.eqb x c then [] :: split c r
      else match split c r with
           | w :: ws => (x :: w) :: ws
           | [] => [[x]]
           end
  end.

(** [s.split(c, 1)]: the part before the first [c] and, when there is a
    [c], the part after it. *)
Fixpoint split_once (c : char) (s : str) : str * option str :=
  match s with
  | [] => ([], None)
  | x :: r =>
      if N.eqb x c then ([], Some r)
      else let (h, t) := split_once c r in (x :: h, t)
  end.

(** [sep.join(ws)] for a one-character [sep]. *)
Fixpoint sep_join (sep : char) (ws : list str) : str :=
  match ws with
  | [] => []
  | [w] => w
  | w :: ws' => w ++ sep :: sep_join sep ws'
  end.

(** [str.isspace] on one code point (the Unicode White_Space and
    bidirectional-separator characters CPython tests). *)
Definition isspace (c : char) : bool :=
  ((9 <=? c) && (c <=? 13) || (28 <=? c) && (c <=? 32)
   || (c =? 133) || (c =? 160) || (c =? 5760)
   || (8192 <=? c) && (c <=? 8202)
   || (c =? 8232) || (c =? 8233) || (c =? 8239) || (c =? 8287)
   || (c =? 12288))%N.

(** Dropping the characters that satisfy [p] from the right end. *)
Fixpoint rstrip_by (p : char -> bool) (s : str) : str :=
  match s with
  | [] => []
  | x :: r =>
      match rstrip_by p r with
      | [] => if p x then [] else [x]
      | r' => x :: r'
      end
  end.

Fixpoint lstrip_by (p : char -> bool) (s : str) : str :=
  match s with
  | [] => []
  | x :: r => if p x then lstrip_by p r else s
  end.

(** [s.rstrip()] *)
Definition rstrip (s : str) : str := rstrip_by isspace s.

(** [s.endswith(c)] and [s.startswith(c)] for a one-character [c]. *)
Definition endswith (c : char) (s : str) : bool :=
  match rev s with
  | x :: _ => N.eqb x c
  | [] => false
  end.

Definition startswith (c : char) (s : str) : bool :=
  match s with
  | x :: _ => N.eqb x c
  | [] => false
  end.

(** [s.startswith(p)] for a string [p]. *)
Fixpoint has_prefix (p s : str) : bool :=
  match p, s with
  | [], _ => true
  | x :: p', y :: s' => N.eqb x y && has_prefix p' s'
  | _ :: _, [] => false
  end.

(** [bool(s)]: a string is true when it is not empty. *)
Definition nonempty (s : str) : bool :=
  match s with [] => false | _ => true end.

(** [x in (a, b, ...)] *)
Definition str_in (x : str) (l : list str) : bool := existsb (str_eqb x) l.

End PyStr.
Import PyStr.

(** ** [Lib/posixpath.py] *)

Module Posixpath.

Definition curdir : str := lit ".".
Definition pardir : str := lit "..".

(** The loop of [normpath] over the components; [rev_new] is [new_comps]
    with its last element first. *)
Fixpoint normpath_comps (initial_slashes : nat) (comps : list str)
    (rev_new : list str) : list str :=
  match comps with
  | [] => rev rev_new
  | comp :: rest =>
      if str_in comp [[]; curdir] then
        normpath_comps initial_slashes rest rev_new
      else if negb (str_eqb comp pardir)
              || (Nat.eqb initial_slashes 0
                  && match rev_new with [] => true | _ => false end)
              || match rev_new with
                 | last :: _ => str_eqb last pardir
                 | [] => false
                 end
      then normpath_comps initial_slashes rest (comp :: rev_new)
      else match rev_new with
           | _ :: popped => normpath_comps initial_slashes rest popped
           | [] => normpath_comps initial_slashes rest rev_new
           end
  end.

(** [normpath(path)], the module's Python definition (the interpreter
    may use its C twin, [posix._path_normpath]). *)
Definition normpath (path : str) : str :=
  match path with
  | [] => curdir
  | _ =>
      let initial_slashes :=
        if startswith slash path then
          if has_prefix [slash; slash] path
             && negb (has_prefix [slash; slash; slash] path)
          then 2 else 1
        else 0 in
      let comps := normpath_comps initial_slashes (split slash path) [] in
      let path' := repeat slash initial_slashes ++ sep_join slash comps in
      match path' with
      | [] => curdir
      | _ => path'
      end
  end.

(** [p[:p.rfind('/') + 1]]: everything up to and including the last
    slash. *)
Fixpoint upto_last_slash (p : str) : str :=
  match p with
  | [] => []
  | x :: r =>
      match upto_last_slash r with
      | [] => if N.eqb x slash then [x] else []
      | h => x :: h
      end
  end.

(** [dirname(p)] *)
Definition dirname (p : str) : str :=
  let head := upto_last_slash p in
  if nonempty head && negb (forallb (N.eqb slash) head)
  then rstrip_by (N.eqb slash) head
  else head.

(** [join(a, b)] with one component [b]. *)
Definition join (a b : str) : str :=
  if startswith slash b then b
  else if negb (nonempty a) || endswith slash a then a ++ b
  else a ++ slash :: b.

(** [p.rfind(c)]: the index of the last [c], or -1. *)
Fixpoint rfind_from (c : char) (s : str) (i : Z) (found : Z) : Z :=
  match s with
  | [] => found
  | x :: r => rfind_from c r (i + 1) (if N.eqb x c then i else found)
  end.

Definition rfind (c : char) (s : str) : Z := rfind_from c s 0 (-1).

(** [p[i:j]] for indices that are not negative. *)
Definition slice (p : str) (i j : Z) : str :=
  firstn (Z.to_nat (j - i)) (skipn (Z.to_nat i) p).

(** [genericpath._splitext(p, '/', None, '.')], which is [splitext(p)]. *)
Definition splitext (p : str) : str * str :=
  let sepIndex := rfind slash p in
  let dotIndex := rfind dot p in
  if (sepIndex <? dotIndex)%Z
     && existsb (fun c => negb (N.eqb c dot)) (slice p (sepIndex + 1) dotIndex)
  then (firstn (Z.to_nat dotIndex) p, skipn (Z.to_nat dotIndex) p)
  else (p, []).

End Posixpath.

(** ** Exceptions

    Only the class of an exception matters to the [except] clauses of the
    code; the message is what a traceback prints. *)

Module Exn.

Inductive cls :=
| OSError
| TimeoutError          (* a subclass of [OSError] *)
| ConnectionResetError  (* a subclass of [OSError] *)
| SSLError              (* [ssl.SSLError], a subclass of [OSError] *)
| ValueError
| UnicodeError          (* a subclass of [ValueError] *)
| OtherException        (* any other subclass of [Exception] *)
| KeyboardInterrupt.    (* a [BaseException] that is not an [Exception] *)

Record exn := raise_ { exn_cls : cls; exn_msg : str }.

(** [isinstance(e, OSError)] *)
Definition is_OSError (e : exn) : bool :=
  match exn_cls e with
  | OSError | TimeoutError | ConnectionResetError | SSLError => true
  | _ => false
  end.

(** [isinstance(e, ValueError)] *)
Definition is_ValueError (e : exn) : bool :=
  match exn_cls e with
  | ValueError | UnicodeError => true
  | _ => false
  end.

(** [isinstance(e, TimeoutError)] *)
Definition is_TimeoutError (e : exn) : bool :=
  match exn_cls e with
  | TimeoutError => true
  | _ => false
  end.

(** [isinstance(e, Exception)] *)
Definition is_Exception (e : exn) : bool :=
  match exn_cls e with
  | KeyboardInterrupt => false
  | _ => true
  end.

(** The outcome of a call that may raise. *)
Inductive result (A : Type) :=
| Ok (a : A)
| Raise (e : exn).
Arguments Ok {A} a.
Arguments Raise {A} e.

Definition bind {A B} (m : result A) (k : A -> result B) : result B :=
  match m with
  | Ok a => k a
  | Raise e => Raise e
  end.

End Exn.
Import Exn.

Notation "x <- m ;; k" := (Exn.bind m (fun x => k))
  (at level 61, m at next level, right associativity).

(** ** [Lib/urllib/parse.py] *)

Module Urllib.

(** The part of the runtime these functions call into C for. *)
Record Codec := {
  (** The loop of [unquote(string, errors='surrogatepass')] on a string
      that contains a ['%']: the escapes decoded as UTF-8; [None] is a
      [UnicodeDecodeError]. *)
  unquote_escapes_surrogatepass : str -> option str;
  (** The same loop with the default [errors='replace'], which does not
      raise. *)
  unquote_escapes_replace : str -> str;
  (** [_check_bracketed_netloc] and [_checknetloc]: [false] when they
      raise [ValueError]. *)
  check_bracketed_netloc : str -> bool;
  checknetloc_nfkc : str -> bool;
}.

Section WithCodec.
Variable codec : Codec.

(** [unquote(string, errors='surrogatepass')] *)
Definition unquote_surrogatepass (string : str) : option str :=
  if negb (contains percent string) then Some string
  else unquote_escapes_surrogatepass codec string.

(** [unquote(string)] *)
Definition unquote (string : str) : str :=
  if negb (contains percent string) then string
  else unquote_escapes_replace codec string.

Record SplitResult := {
  scheme : str;
  netloc : str;
  path : str;
  query : str;
  fragment : str;
}.

Definition is_ascii_alpha (c : char) : bool :=
  ((65 <=? c) && (c <=? 90) || (97 <=? c) && (c <=? 122))%N.

Definition is_digit (c : char) : bool := ((48 <=? c) && (c <=? 57))%N.

(** [c in scheme_chars] *)
Definition is_scheme_char (c : char) : bool :=
  is_ascii_alpha c || is_digit c
  || N.eqb c 43 || N.eqb c 45 || N.eqb c 46.

(** [str.lower()] on ASCII letters (all a scheme can hold). *)
Definition ascii_lower (s : str) : str :=
  map (fun c => if ((65 <=? c) && (c <=? 90))%N then (c + 32)%N else c) s.

(** [_WHATWG_C0_CONTROL_OR_SPACE] *)
Definition is_c0_or_space (c : char) : bool := (c <=? 32)%N.

(** [_UNSAFE_URL_BYTES_TO_REMOVE] *)
Definition is_unsafe_byte (c : char) : bool :=
  N.eqb c 9 || N.eqb c 13 || N.eqb c 10.

(** [_splitnetloc(url, 2)] on a [url] that starts with two slashes,
    given without them: the domain runs to the first of ['/?#']. *)
Fixpoint splitnetloc (after : str) : str * str :=
  match after with
  | [] => ([], [])
  | x :: r =>
      if N.eqb x slash || N.eqb x question || N.eqb x hash then ([], after)
      else let (d, rest) := splitnetloc r in (x :: d, rest)
  end.

Definition lbracket : char := 91%N.
Definition rbracket : char := 93%N.

Definition invalid_ipv6 : exn :=
  raise_ ValueError (lit "Invalid IPv6 URL").
Definition invalid_bracketed : exn :=
  raise_ ValueError (lit "Invalid bracketed host").
Definition invalid_netloc : exn :=
  raise_ ValueError (lit "netloc contains invalid characters").

(** [urlsplit(url)] with the default [scheme=''] and
    [allow_fragments=True]. *)
Definition urlsplit (url0 : str) : result SplitResult :=
  let url := lstrip_by is_c0_or_space url0 in
  let url := filter (fun c => negb (is_unsafe_byte c)) url in
  let (before, after) := split_once colon url in
  let '(scheme, url) :=
    match after, before with
    | Some rest, c0 :: _ =>
        if is_ascii_alpha c0 && forallb is_scheme_char before
        then (ascii_lower before, rest)
        else ([], url)
    | _, _ => ([], url)
    end in
  parsed <-
    match url with
    | a :: b :: after2 =>
        if N.eqb a slash && N.eqb b slash then
          let (netloc, rest) := splitnetloc after2 in
          let lb := contains lbracket netloc in
          let rb := contains rbracket netloc in
          if (lb && negb rb) || (rb && negb lb) then Raise invalid_ipv6
          else if lb && rb && negb (check_bracketed_netloc codec netloc)
          then Raise invalid_bracketed
          else Ok (netloc, rest)
        else Ok ([], url)
    | _ => Ok ([], url)
    end ;;
  let '(netloc, url) := parsed in
  let '(url, fragment) :=
    match split_once hash url with
    | (u, Some f) => (u, f)
    | (u, None) => (u, [])
    end in
  let '(url, query) :=
    match split_once question url with
    | (u, Some q) => (u, q)
    | (u, None) => (u, [])
    end in
  if nonempty netloc && negb (forallb (fun c => (c <? 128)%N) netloc)
     && negb (checknetloc_nfkc codec netloc)
  then Raise invalid_netloc
  else Ok {| scheme := scheme; netloc := netloc; path := url;
             query := query; fragment := fragment |}.

Definition uses_netloc : list str :=
  [] ::
  map lit ["ftp"; "http"; "gopher"; "nntp"; "telnet";
           "imap"; "wais"; "file"; "mms"; "https"; "shttp";
           "snews"; "prospero"; "rtsp"; "rtspu"; "rsync";
           "svn"; "svn+ssh"; "sftp"; "nfs"; "git"; "git+ssh";
           "ws"; "wss"]%string.

(** [urlunsplit((scheme, netloc, url, query, fragment))] *)
Definition urlunsplit (c : SplitResult) : str :=
  let url := path c in
  let url :=
    if nonempty (netloc c)
       || (nonempty (scheme c) && str_in (scheme c) uses_netloc
           && negb (has_prefix [slash; slash] url))
    then
      let url := if nonempty url && negb (startswith slash url)
                 then slash :: url else url in
      [slash; slash] ++ netloc c ++ url
    else url in
  let url := if nonempty (scheme c) then scheme c ++ colon :: url else url in
  let url := if nonempty (query c) then url ++ question :: query c else url in
  let url := if nonempty (fragment c) then url ++ hash :: fragment c
             else url in
  url.

End WithCodec.

End Urllib.

(** ** [Lib/http/server.py]: [SimpleHTTPRequestHandler] *)

Module HttpServer.

Definition bytes := list Byte.byte.

(** [str(n)] for an integer that is not negative. *)
Definition str_of_N (n : N) : str := lit (NilZero.string_of_uint (N.to_uint n)).

(** What [os.fstat] tells of an open file; [st_mtime] in whole seconds. *)
Record stat_result := { st_size : N; st_mtime : Z }.

(** A file object open for reading: what reading it to the end gives. *)
Record file := { f_read : bytes; f_stat : stat_result }.

(** The operating system's answers on path names. *)
Record FileSystem := {
  isdir : str -> bool;                 (* os.path.isdir *)
  isfile : str -> bool;                (* os.path.isfile *)
  islink : str -> bool;                (* os.path.islink *)
  listdir : str -> result (list str);  (* os.listdir *)
  open_rb : str -> result file;        (* open(path, 'rb') *)
}.

Inductive tzinfo := Naive | Utc | OtherTz.

(** A [datetime]: seconds since the epoch of its wall-clock fields read as
    UTC, and its [tzinfo]. *)
Record datetime := { dt_seconds : Z; dt_tzinfo : tzinfo }.

(** The runtime below the handler: C codecs, Unicode tables, the MIME
    database, the clock and the process's working directory. *)
Record Platform := {
  codec : Urllib.Codec;
  (** [os.getcwd()] *)
  getcwd : str;
  (** [str.lower] *)
  str_lower : str -> str;
  (** [mimetypes.guess_type(path)[0]] *)
  mimetypes_guess_type : str -> option str;
  (** [email.utils.parsedate_to_datetime]; [None] when it raises one of
      the exceptions [send_head] passes over. *)
  parsedate_to_datetime : str -> option datetime;
  version_string : str;
  (** [date_time_string(timestamp)]; [None] is the current time. *)
  date_time_string : option Z -> str;
  (** [sys.getfilesystemencoding()] *)
  getfilesystemencoding : str;
  (** [s.encode(enc, 'surrogateescape')] *)
  encode_surrogateescape : str -> result bytes;
  (** [s.encode('UTF-8', 'replace')] *)
  encode_utf8_replace : str -> bytes;
  (** [urllib.parse.quote(s, errors='surrogatepass')] *)
  quote : str -> str;
  (** ['%r' % s] *)
  repr : str -> str;
}.

(** The request as [parse_request] leaves it in the handler: the fields
    the methods below read. *)
Record request := {
  command : str;
  path : str;
  request_version : str;
  (** [headers["If-Modified-Since"]], when the header is present. *)
  if_modified_since : option str;
  (** ["If-None-Match" in headers] *)
  has_if_none_match : bool;
}.

(** What the handler hands to [send_response], [send_header] and
    [wfile.write] for one request.  The status line and the headers reach
    the wire only when the request is not HTTP/0.9 ([head_written]). *)
Record response := {
  status : N;
  reason : str;
  head_written : bool;
  headers : list (str * str);
  body : bytes;
}.

Definition OK : N := 200.
Definition MOVED_PERMANENTLY : N := 301.
Definition NOT_MODIFIED : N := 304.
Definition NOT_FOUND : N := 404.
Definition NOT_IMPLEMENTED : N := 501.
Definition REQUEST_URI_TOO_LONG : N := 414.
Definition NO_CONTENT : N := 204.
Definition RESET_CONTENT : N := 205.

(** The entries of [responses] for the codes this handler sends. *)
Definition responses (code : N) : option (str * str) :=
  if N.eqb code OK then
    Some (lit "OK", lit "Request fulfilled, document follows")
  else if N.eqb code MOVED_PERMANENTLY then
    Some (lit "Moved Permanently",
          lit "Object moved permanently -- see URI list")
  else if N.eqb code NOT_MODIFIED then
    Some (lit "Not Modified", lit "Document has not changed since given time")
  else if N.eqb code NOT_FOUND then
    Some (lit "Not Found", lit "Nothing matches the given URI")
  else if N.eqb code REQUEST_URI_TOO_LONG then
    Some (lit "Request-URI Too Long", lit "URI is too long")
  else if N.eqb code NOT_IMPLEMENTED then
    Some (lit "Not Implemented", lit "Server does not support this operation")
  else None.

(** [s.replace(c, by)] for a one-character [c]. *)
Definition replace_char (c : char) (by_ : str) (s : str) : str :=
  flat_map (fun x => if N.eqb x c then by_ else [x]) s.

(** [html.escape(s, quote=False)] *)
Definition html_escape (s : str) : str :=
  let s := replace_char 38%N (lit "&amp;") s in
  let s := replace_char 60%N (lit "&lt;") s in
  replace_char 62%N (lit "&gt;") s.

Definition extensions_map : list (str * str) :=
  [ (lit ".gz", lit "application/gzip");
    (lit ".Z", lit "application/octet-stream");
    (lit ".bz2", lit "application/x-bzip2");
    (lit ".xz", lit "application/x-xz") ].

Fixpoint lookup (k : str) (m : list (str * str)) : option str :=
  match m with
  | [] => None
  | (k', v) :: m' => if str_eqb k k' then Some v else lookup k m'
  end.

(** Python's [<] on strings: by code point, a proper prefix first. *)
Fixpoint str_ltb (a b : str) : bool :=
  match a, b with
  | _, [] => false
  | [], _ :: _ => true
  | x :: a', y :: b' => N.ltb x y || (N.eqb x y && str_ltb a' b')
  end.

(** [list.sort(key=key)]: a stable sort, here by insertion from the
    right: an element goes before the first one whose key is not
    smaller. *)
Fixpoint insert_by (key : str -> str) (x : str) (l : list str) : list str :=
  match l with
  | [] => [x]
  | y :: l' =>
      if str_ltb (key y) (key x) then y :: insert_by key x l' else x :: l
  end.

Definition sort_by (key : str -> str) (l : list str) : list str :=
  fold_right (insert_by key) [] l.

Definition newline : char := 10%N.
Definition dquote : char := 34%N.

Section Handler.
Variable pf : Platform.
Variable fs : FileSystem.

(** [self.directory], set from [os.getcwd()] when the handler is made. *)
Definition directory : str := getcwd pf.

(** The loop of [translate_path] over the words. *)
Fixpoint translate_words (path : str) (words : list str) : str :=
  match words with
  | [] => path
  | word :: rest =>
      if nonempty (Posixpath.dirname word)
         || str_in word [Posixpath.curdir; Posixpath.pardir]
      then translate_words path rest
      else translate_words (Posixpath.join path word) rest
  end.

(** [translate_path(self, path)] *)
Definition translate_path (path : str) : str :=
  let path := fst (split_once question path) in
  let path := fst (split_once hash path) in
  let trailing_slash := endswith slash (rstrip path) in
  let path :=
    match Urllib.unquote_surrogatepass (codec pf) path with
    | Some p => p
    | None => Urllib.unquote (codec pf) path
    end in
  let path := Posixpath.normpath path in
  let words := filter nonempty (split slash path) in
  let path := translate_words directory words in
  if trailing_slash then path ++ [slash] else path.

(** [guess_type(self, path)] *)
Definition guess_type (path : str) : str :=
  let (base, ext) := Posixpath.splitext path in
  match lookup ext extensions_map with
  | Some t => t
  | None =>
      let ext := str_lower pf ext in
      match lookup ext extensions_map with
      | Some t => t
      | None =>
          match mimetypes_guess_type pf path with
          | Some (c :: g) => c :: g
          | _ => lit "application/octet-stream"
          end
      end
  end.

(** [send_response(code, message)]: the status line with the two headers
    it adds. *)
Definition send_response (req : request) (code : N) (message : option str)
    : response :=
  {| status := code;
     reason := match message with
               | Some m => m
               | None => match responses code with
                         | Some (short, _) => short
                         | None => []
                         end
               end;
     head_written := negb (str_eqb (request_version req) (lit "HTTP/0.9"));
     headers := [ (lit "Server", version_string pf);
                  (lit "Date", date_time_string pf None) ];
     body := [] |}.

Definition send_header (keyword value : str) (r : response) : response :=
  {| status := status r; reason := reason r;
     head_written := head_written r;
     headers := headers r ++ [(keyword, value)];
     body := body r |}.

(** [wfile.write(data)], taken to succeed: the peer reads what is sent. *)
Definition write (data : bytes) (r : response) : response :=
  {| status := status r; reason := reason r;
     head_written := head_written r;
     headers := headers r;
     body := body r ++ data |}.

(** [error_message_format % {'code': ..., 'message': ..., 'explain': ...}] *)
Definition error_message (code : N) (message explain : str) : str :=
  lit "<!DOCTYPE HTML>" ++ newline ::
  lit "<html lang=" ++ dquote :: lit "en" ++ dquote :: lit ">" ++ newline ::
  lit "    <head>" ++ newline ::
  lit "        <meta charset=" ++ dquote :: lit "utf-8" ++ dquote :: lit ">"
    ++ newline ::
  lit "        <title>Error response</title>" ++ newline ::
  lit "    </head>" ++ newline ::
  lit "    <body>" ++ newline ::
  lit "        <h1>Error response</h1>" ++ newline ::
  lit "        <p>Error code: " ++ str_of_N code ++ lit "</p>" ++ newline ::
  lit "        <p>Message: " ++ message ++ lit ".</p>" ++ newline ::
  lit "        <p>Error code explanation: " ++ str_of_N code ++ lit " - "
    ++ explain ++ lit ".</p>" ++ newline ::
  lit "    </body>" ++ newline ::
  lit "</html>" ++ [newline].

(** [send_error(code, message)] with the default [explain]. *)
Definition send_error (req : request) (code : N) (message : option str)
    : response :=
  let '(shortmsg, longmsg) :=
    match responses code with
    | Some p => p
    | None => (lit "???", lit "???")
    end in
  let message := match message with Some m => m | None => shortmsg end in
  let explain := longmsg in
  let r := send_response req code (Some message) in
  let r := send_header (lit "Connection") (lit "close") r in
  if (200 <=? code)%N
     && negb (N.eqb code NO_CONTENT || N.eqb code RESET_CONTENT
              || N.eqb code NOT_MODIFIED)
  then
    let content := error_message code (html_escape message)
                     (html_escape explain) in
    let body := encode_utf8_replace pf content in
    let r := send_header (lit "Content-Type")
               (lit "text/html;charset=utf-8") r in
    let r := send_header (lit "Content-Length")
               (str_of_N (N.of_nat (List.length body))) r in
    if negb (str_eqb (command req) (lit "HEAD"))
       && match body with [] => false | _ => true end
    then write body r else r
  else r.

(** One [<li>] line of [list_directory] for the entry [name] of [path]. *)
Definition listing_line (path name : str) : str :=
  let fullname := Posixpath.join path name in
  let displayname := name in
  let linkname := name in
  let '(displayname, linkname) :=
    if isdir fs fullname then (name ++ [slash], name ++ [slash])
    else (displayname, linkname) in
  let displayname :=
    if islink fs fullname then name ++ lit "@" else displayname in
  lit "<li><a href=" ++ dquote :: quote pf linkname ++ dquote :: lit ">"
    ++ html_escape displayname ++ lit "</a></li>".

(** The lines [r] that [list_directory] joins, for the sorted names. *)
Definition listing_lines (req : request) (path : str) (names : list str)
    : list str :=
  let displaypath :=
    match Urllib.unquote_surrogatepass (codec pf) (HttpServer.path req) with
    | Some d => d
    | None => Urllib.unquote (codec pf) path
    end in
  let displaypath := html_escape displaypath in
  let enc := getfilesystemencoding pf in
  let title := lit "Directory listing for " ++ displaypath in
  [ lit "<!DOCTYPE HTML>";
    lit "<html lang=" ++ dquote :: lit "en" ++ dquote :: lit ">";
    lit "<head>";
    lit "<meta charset=" ++ dquote :: enc ++ dquote :: lit ">";
    lit "<title>" ++ title ++ lit "</title>" ++ newline :: lit "</head>";
    lit "<body>" ++ newline :: lit "<h1>" ++ title ++ lit "</h1>";
    lit "<hr>" ++ newline :: lit "<ul>" ]
  ++ map (listing_line path) names
  ++ [ lit "</ul>" ++ newline :: lit "<hr>" ++ newline :: lit "</body>"
       ++ newline :: lit "</html>" ++ [newline] ].

(** [list_directory(self, path)]: the response head and the file object
    to copy, or [None] after an error reply. *)
Definition list_directory (req : request) (path : str)
    : result (response * option bytes) :=
  match listdir fs path with
  | Raise e =>
      if is_OSError e
      then Ok (send_error req NOT_FOUND
                 (Some (lit "No permission to list directory")),
               None)
      else Raise e
  | Ok names =>
      let names := sort_by (str_lower pf) names in
      let r := listing_lines req path names in
      encoded <- encode_surrogateescape pf (sep_join newline r) ;;
      let enc := getfilesystemencoding pf in
      let h := send_response req OK None in
      let h := send_header (lit "Content-type")
                 (lit "text/html; charset=" ++ enc) h in
      let h := send_header (lit "Content-Length")
                 (str_of_N (N.of_nat (List.length encoded))) h in
      Ok (h, Some encoded)
  end.

(** The test of [send_head] on the two validators: [true] when the reply
    is 304. *)
Definition not_modified (req : request) (st : stat_result) : bool :=
  match if_modified_since req with
  | Some value =>
      if has_if_none_match req then false
      else
        match parsedate_to_datetime pf value with
        | None => false
        | Some ims =>
            let ims :=
              match dt_tzinfo ims with
              | Naive => {| dt_seconds := dt_seconds ims; dt_tzinfo := Utc |}
              | _ => ims
              end in
            match dt_tzinfo ims with
            | Utc => (st_mtime st <=? dt_seconds ims)%Z
            | _ => false
            end
        end
  | None => false
  end.

(** [send_head] from [ctype = self.guess_type(path)] on. *)
Definition send_head_file (req : request) (path : str)
    : result (response * option bytes) :=
  let ctype := guess_type path in
  if endswith slash path then
    Ok (send_error req NOT_FOUND (Some (lit "File not found")), None)
  else
    match open_rb fs path with
    | Raise e =>
        if is_OSError e
        then Ok (send_error req NOT_FOUND (Some (lit "File not found")), None)
        else Raise e
    | Ok f =>
        let st := f_stat f in
        if not_modified req st then
          Ok (send_response req NOT_MODIFIED None, None)
        else
          let h := send_response req OK None in
          let h := send_header (lit "Content-type") ctype h in
          let h := send_header (lit "Content-Length")
                     (str_of_N (st_size st)) h in
          let h := send_header (lit "Last-Modified")
                     (date_time_string pf (Some (st_mtime st))) h in
          Ok (h, Some (f_read f))
    end.

(** [send_head(self)] *)
Definition send_head (req : request) : result (response * option bytes) :=
  let path := translate_path (HttpServer.path req) in
  if isdir fs path then
    parts <- Urllib.urlsplit (codec pf) (HttpServer.path req) ;;
    if negb (endswith slash (Urllib.path parts)) then
      let h := send_response req MOVED_PERMANENTLY None in
      let new_parts :=
        {| Urllib.scheme := Urllib.scheme parts;
           Urllib.netloc := Urllib.netloc parts;
           Urllib.path := Urllib.path parts ++ [slash];
           Urllib.query := Urllib.query parts;
           Urllib.fragment := Urllib.fragment parts |} in
      let new_url := Urllib.urlunsplit new_parts in
      let h := send_header (lit "Location") new_url h in
      let h := send_header (lit "Content-Length") (lit "0") h in
      Ok (h, None)
    else
      match
        find (isfile fs)
          (map (Posixpath.join path) [lit "index.html"; lit "index.htm"])
      with
      | Some index => send_head_file req index
      | None => list_directory req path
      end
  else send_head_file req path.

(** [do_GET(self)] *)
Definition do_GET (req : request) : result response :=
  hf <- send_head req ;;
  match hf with
  | (h, Some f) => Ok (write f h)
  | (h, None) => Ok h
  end.

(** [do_HEAD(self)] *)
Definition do_HEAD (req : request) : result response :=
  hf <- send_head req ;;
  Ok (fst hf).

(** [handle_one_request] once [parse_request] has accepted the request:
    the method [do_<command>] when the class has one. *)
Definition handle_method (req : request) : result response :=
  if str_eqb (command req) (lit "GET") then do_GET req
  else if str_eqb (command req) (lit "HEAD") then do_HEAD req
  else Ok (send_error req NOT_IMPLEMENTED
             (Some (lit "Unsupported method (" ++ repr pf (command req)
                    ++ lit ")"))).

End Handler.

End HttpServer.

(** ** [Lib/socketserver.py] and [ssl.SSLSocket.accept]: the serve loop *)

Module SocketServer.
Import HttpServer.

(** What the handler finds when it reads the request of a connection. *)
Inductive request_line :=
| Eof                      (* [readline] returns [b'']: the peer closed *)
| Silent                   (* the peer stops sending before the request is
                              complete, and does not close *)
| ReadRaises (e : exn)     (* reading raises *)
| TooLong                  (* more than 65536 bytes *)
| Blank                    (* no word on the line: [parse_request] returns
                              [False] and sends nothing *)
| Rejected (r : response)  (* [parse_request] replied [r], returned [False] *)
| Parsed (req : request).  (* [parse_request] returned [True] *)

(** The server side of the TLS handshake, [do_handshake()]. *)
Inductive handshake :=
| Completed
| Failed (e : exn)         (* it raises *)
| Stalled.                 (* the peer never answers *)

(** One connection that becomes ready on the listening socket. *)
Record connection := {
  tcp_accept : result unit;  (* [socket.accept()] on the listening socket *)
  tls : handshake;
  client : request_line;
}.

Inductive event :=
| Accepted (id : nat)                 (* [socket.accept()] returned [id] *)
| AcceptFailed (e : exn)
| HandshakeFailed (id : nat) (e : exn)
| HandshakeDone (id : nat)
| Replied (id : nat) (r : response)   (* written on connection [id] *)
| LoggedTimeout (id : nat) (e : exn)  (* [log_error("Request timed out")] *)
| ErrorReport (id : nat) (e : exn)    (* [handle_error]: traceback on stderr *)
| Closed (id : nat).                  (* the connection's socket is closed *)

(** Where control is when the events are over. *)
Inductive outcome :=
| Waiting                (* in [selector.select], no connection open *)
| Blocked (id : nat)     (* in a call on connection [id] that does not return *)
| Propagated (e : exn).  (* [e] left [serve_forever] *)

(** [StreamRequestHandler.timeout], which no subclass here overrides:
    [setup] leaves the connection blocking. *)
Definition timeout : option N := None.

(** How a method of the handler ends. *)
Inductive ending :=
| Returns
| Raises (e : exn)
| NeverReturns.

Section Server.
Variable pf : Platform.

(** [RequestHandlerClass], by what its [do_<command>] methods do with a
    parsed request. *)
Variable RequestHandlerClass : request -> result response.

(** [send_error(HTTPStatus.REQUEST_URI_TOO_LONG)], sent with
    [command = ''] and [request_version = '']. *)
Definition too_long_reply : response :=
  send_error pf
    {| command := []; path := []; request_version := [];
       if_modified_since := None; has_if_none_match := false |}
    REQUEST_URI_TOO_LONG None.

(** The [except TimeoutError] clause of [handle_one_request]. *)
Definition catch_timeout (id : nat) (e : exn) : list event * ending :=
  if is_TimeoutError e then ([LoggedTimeout id e], Returns)
  else ([], Raises e).

(** [handle_one_request(self)] on connection [id].  Every path sets or
    leaves [close_connection] true: [parse_request] clears it only for a
    [protocol_version] of HTTP/1.1 or more, and the class has
    ["HTTP/1.0"]. *)
Definition handle_one_request (id : nat) (c : request_line)
    : list event * ending :=
  match c with
  | Eof => ([], Returns)
  | Silent =>
      match timeout with
      | None => ([], NeverReturns)
      | Some _ =>
          catch_timeout id (raise_ TimeoutError (lit "timed out"))
      end
  | ReadRaises e => catch_timeout id e
  | TooLong => ([Replied id too_long_reply], Returns)
  | Blank => ([], Returns)
  | Rejected r => ([Replied id r], Returns)
  | Parsed req =>
      match RequestHandlerClass req with
      | Ok r => ([Replied id r], Returns)
      | Raise e => catch_timeout id e
      end
  end.

(** [handle(self)]: [close_connection] is true after the first request,
    so the loop body does not run. *)
Definition handle (id : nat) (c : request_line) : list event * ending :=
  handle_one_request id c.

(** [finish_request]: [RequestHandlerClass(request, client_address, self)],
    whose [__init__] runs [setup()], [handle()] and, in a [finally],
    [finish()]. *)
Definition finish_request (id : nat) (c : request_line)
    : list event * ending :=
  handle id c.

(** [shutdown_request(request)]: [request.shutdown(SHUT_WR)], whose
    [OSError] is passed over, then [close_request]. *)
Definition shutdown_request (id : nat) : list event := [Closed id].

(** [process_request(request, client_address)] *)
Definition process_request (id : nat) (c : request_line)
    : list event * ending :=
  match finish_request id c with
  | (evs, Returns) => (evs ++ shutdown_request id, Returns)
  | r => r
  end.

(** [get_request()], which is [SSLSocket.accept()] on the wrapped
    listening socket: [socket.accept()], then [wrap_socket] on the new
    socket, whose [_create] does the handshake and closes the socket when
    it raises [OSError] or [ValueError]. *)
Definition get_request (id : nat) (c : connection) : list event * ending :=
  match tcp_accept c with
  | Raise e => ([AcceptFailed e], Raises e)
  | Ok _ =>
      match tls c with
      | Completed => ([Accepted id; HandshakeDone id], Returns)
      | Stalled => ([Accepted id], NeverReturns)
      | Failed e =>
          if is_OSError e || is_ValueError e
          then ([Accepted id; HandshakeFailed id e; Closed id], Raises e)
          else ([Accepted id; HandshakeFailed id e], Raises e)
      end
  end.

(** [_handle_request_noblock(self)]; [verify_request] returns [True]. *)
Definition handle_request_noblock (id : nat) (c : connection)
    : list event * ending :=
  match get_request id c with
  | (evs, Raises e) =>
      if is_OSError e then (evs, Returns) else (evs, Raises e)
  | (evs, NeverReturns) => (evs, NeverReturns)
  | (evs, Returns) =>
      match process_request id (client c) with
      | (evs', Raises e) =>
          if is_Exception e
          then (evs ++ evs' ++ ErrorReport id e :: shutdown_request id,
                Returns)
          else (evs ++ evs' ++ shutdown_request id, Raises e)
      | (evs', o) => (evs ++ evs', o)
      end
  end.

(** [serve_forever(self)] on the connections that become ready, in
    order, numbered from [id].  [shutdown()] is never called, so the loop
    ends only when an exception leaves it.  The passes of the loop are
    what is followed here: an exception raised while the loop waits in
    [selector.select], no connection in hand, has no place in it. *)
Fixpoint serve_from (id : nat) (arrivals : list connection)
    : list event * outcome :=
  match arrivals with
  | [] => ([], Waiting)
  | c :: rest =>
      match handle_request_noblock id c with
      | (evs, Returns) =>
          let (evs', o) := serve_from (S id) rest in (evs ++ evs', o)
      | (evs, Raises e) => (evs, Propagated e)
      | (evs, NeverReturns) => (evs, Blocked id)
      end
  end.

Definition serve_forever (arrivals : list connection) : list event * outcome :=
  serve_from 0 arrivals.

End Server.

End SocketServer.

(** ** [src/http_server.py]: the script *)

Module Script.
Import HttpServer SocketServer.

(** [str(n)] for an [int]. *)
Definition str_of_Z (z : Z) : str := lit (NilZero.string_of_int (Z.to_int z)).

(** What the script's calls meet outside the process. *)
Record World := {
  platform : Platform;
  filesystem : FileSystem;
  (** [socket.socket(AF_INET, SOCK_STREAM)] *)
  socket_socket : result unit;
  (** [socket.bind((host, port))] *)
  socket_bind : str -> Z -> result unit;
  (** [socket.listen(5)] *)
  socket_listen : result unit;
  (** [context.load_cert_chain(certfile, keyfile)] *)
  load_cert_chain : str -> str -> result unit;
  (** [context.wrap_socket(sock, server_side=True)] *)
  wrap_socket : result unit;
  (** The connections that become ready, in order. *)
  arrivals : list connection;
}.

(** The calls the process makes, and what it writes. *)
Inductive effect :=
| Socket                        (* socket.socket(...) *)
| Bind (host : str) (port : Z)  (* socket.bind((host, port)) *)
| Listen                        (* socket.listen(...) *)
| CloseListener                 (* socket.close() on the listening socket *)
| SSLContext                    (* ssl.SSLContext(PROTOCOL_TLS_SERVER) *)
| LoadCertChain (certfile keyfile : str)
| WrapSocket
| Print (line : str)            (* a line on standard output *)
| Serve (e : SocketServer.event)
| Traceback (e : exn).          (* the traceback of [e] on standard error *)

(** A statement: the effects it has, and its value or the exception it
    raises. *)
Definition M (A : Type) : Type := list effect * result A.

Definition seq {A B} (m : M A) (k : A -> M B) : M B :=
  match m with
  | (t, Ok a) => let (t', r) := k a in (t ++ t', r)
  | (t, Raise e) => (t, Raise e)
  end.

(** A call of the library, which returns or raises. *)
Definition call (ev : effect) (r : result unit) : M unit := ([ev], r).

(** [try: body  except: cleanup; raise] *)
Definition except_reraise {A} (body : M A) (cleanup : list effect) : M A :=
  match body with
  | (t, Raise e) => (t ++ cleanup, Raise e)
  | r => r
  end.

Notation "m >> k" := (seq m (fun _ => k))
  (at level 62, right associativity).

Definition IP_ADDRESS : str := lit "YOURADRESS".
Definition PORT : Z := 8000.

Section Run.
Variable w : World.

(** [http.server.HTTPServer(server_address, handler)], which is
    [TCPServer.__init__]: the socket, then [server_bind] and
    [server_activate] under a handler that closes the socket. *)
Definition HTTPServer (server_address : str * Z) : M unit :=
  call Socket (socket_socket w) >>
  except_reraise
    (call (Bind (fst server_address) (snd server_address))
          (socket_bind w (fst server_address) (snd server_address)) >>
     call Listen (socket_listen w))
    [CloseListener].

(** [handler = http.server.SimpleHTTPRequestHandler] *)
Definition handler : request -> result response :=
  handle_method (platform w) (filesystem w).

(** [httpd = http.server.HTTPServer((IP_ADDRESS, PORT), handler)] *)
Definition httpd : M unit := HTTPServer (IP_ADDRESS, PORT).

(** [context = ssl.SSLContext(ssl.PROTOCOL_TLS_SERVER)] and
    [context.load_cert_chain(certfile="cert.pem", keyfile="key.pem")] *)
Definition context : M unit :=
  call SSLContext (Ok tt) >>
  call (LoadCertChain (lit "cert.pem") (lit "key.pem"))
       (load_cert_chain w (lit "cert.pem") (lit "key.pem")).

(** The script down to its [print]. *)
Definition startup : M unit :=
  httpd >>
  context >>
  call WrapSocket (wrap_socket w) >>
  call (Print (lit "Serving on https://" ++ IP_ADDRESS ++ lit ":"
               ++ str_of_Z PORT)) (Ok tt).

(** How the process stands once the events are over. *)
Inductive state :=
| Exited (status : Z)
| Running (o : outcome).   (* inside [serve_forever]: [Waiting] or [Blocked] *)

(** An exception that nothing catches: the interpreter prints its
    traceback and the process ends, with status 1 for an [Exception] (and
    with what the shell reports as 130 for a [KeyboardInterrupt]). *)
Definition uncaught_status (e : exn) : Z :=
  if is_Exception e then 1 else 130.

(** The whole script. *)
Definition run : list effect * state :=
  match startup with
  | (t, Raise e) => (t ++ [Traceback e], Exited (uncaught_status e))
  | (t, Ok _) =>
      match serve_forever (platform w) handler (arrivals w) with
      | (evs, Propagated e) =>
          (t ++ map Serve evs ++ [Traceback e], Exited (uncaught_status e))
      | (evs, o) => (t ++ map Serve evs, Running o)
      end
  end.

End Run.

End Script.

(** ** [Lib/urllib/parse.py]: [quote_from_bytes] and [unquote_to_bytes]

    [list_directory] quotes each name for its link; [translate_path]
    unquotes the path of the request that follows the link. *)

Module UrllibQuote.
Import HttpServer.

(** The number of a byte, and the byte of a number below 256. *)
Definition code (b : Byte.byte) : N := N_of_ascii (ascii_of_byte b).
Definition byte_of_code (n : N) : Byte.byte := byte_of_ascii (ascii_of_N n).

(** [s.encode('utf-8')] on a string of ASCII characters. *)
Definition ascii_encode (s : str) : bytes := map byte_of_code s.

(** [b in _ALWAYS_SAFE] *)
Definition always_safe (b : Byte.byte) : bool :=
  let c := code b in
  ((65 <=? c) && (c <=? 90) || (97 <=? c) && (c <=? 122)
   || (48 <=? c) && (c <=? 57)
   || (c =? 95) || (c =? 46) || (c =? 45) || (c =? 126))%N.

(** [b in self.safe]: [_ALWAYS_SAFE] and the ASCII characters of [safe]. *)
Definition in_safe (safe : str) (b : Byte.byte) : bool :=
  always_safe b
  || existsb (fun c => (c <? 128)%N && (c =? code b)%N) safe.

(** One digit of ['{:02X}'.format(b)]. *)
Definition hexdigit_upper (n : N) : char :=
  if (n <? 10)%N then (48 + n)%N else (55 + n)%N.

(** [_Quoter.__missing__(b)] *)
Definition quoter (safe : str) (b : Byte.byte) : str :=
  if in_safe safe b then [code b]
  else [percent; hexdigit_upper (code b / 16); hexdigit_upper (code b mod 16)].

(** [quote_from_bytes(bs, safe)] *)
Definition quote_from_bytes (bs : bytes) (safe : str) : str :=
  match bs with
  | [] => []
  | _ =>
      if forallb (in_safe safe) bs then map code bs
      else flat_map (quoter safe) bs
  end.

(** [quote(string, errors='surrogatepass')] on the bytes that
    [string.encode('utf-8', 'surrogatepass')] gives. *)
Definition quote (encode : str -> bytes) (string : str) : str :=
  match string with
  | [] => string
  | _ => quote_from_bytes (encode string) (lit "/")
  end.

Definition percent_byte : Byte.byte := Byte.x25.

(** [s.split(b'%')] on bytes. *)
Fixpoint bsplit (c : Byte.byte) (s : bytes) : list bytes :=
  match s with
  | [] => [[]]
  | x :: r =>
      if Byte.eqb x c then [] :: bsplit c r
      else match bsplit c r with
           | w :: ws => (x :: w) :: ws
           | [] => [[x]]
           end
  end.

(** The value of a character of [_hexdig]. *)
Definition hexval (b : Byte.byte) : option N :=
  let c := code b in
  if ((48 <=? c) && (c <=? 57))%N then Some (c - 48)%N
  else if ((65 <=? c) && (c <=? 70))%N then Some (c - 55)%N
  else if ((97 <=? c) && (c <=? 102))%N then Some (c - 87)%N
  else None.

(** The body of the loop of [unquote_to_bytes] for one [item]:
    [_hextobyte[item[:2]]] and [item[2:]], or, on [KeyError], [b'%'] and
    [item]. *)
Definition unquote_item (item : bytes) : bytes :=
  match item with
  | a :: b :: rest =>
      match hexval a, hexval b with
      | Some x, Some y => byte_of_code (16 * x + y) :: rest
      | _, _ => percent_byte :: item
      end
  | _ => percent_byte :: item
  end.

(** [unquote_to_bytes(string)] on bytes. *)
Definition unquote_to_bytes (string : bytes) : bytes :=
  match string with
  | [] => []
  | _ =>
      match bsplit percent_byte string with
      | first :: item :: items =>
          first ++ flat_map unquote_item (item :: items)
      | _ => string
      end
  end.

End UrllibQuote.

(** ** [Lib/http/server.py]: the log *)

Module HttpLog.
Import HttpServer.

Definition backslash : char := 92%N.

(** The characters [_control_char_table] replaces by an escape. *)
Definition is_control (c : char) : bool :=
  ((c <? 32) || (127 <=? c) && (c <? 160))%N.

(** One digit of [fr'\x{c:02x}']. *)
Definition hexdigit_lower (n : N) : char :=
  if (n <? 10)%N then (48 + n)%N else (87 + n)%N.

(** What [_control_char_table] gives for [c], or [c] itself. *)
Definition control_char_table (c : char) : str :=
  if N.eqb c backslash then [backslash; backslash]
  else if is_control c
  then [backslash; 120%N; hexdigit_lower (c / 16); hexdigit_lower (c mod 16)]
  else [c].

(** [message.translate(self._control_char_table)] *)
Definition translate (message : str) : str :=
  flat_map control_char_table message.

(** What [log_message(format, *args)] writes on standard error, given
    [message = format % args]. *)
Definition log_message (address_string log_date_time_string message : str)
    : str :=
  address_string ++ lit " - - [" ++ log_date_time_string ++ lit "] "
    ++ translate message ++ [newline].

(** [log_request(code)]: the message is ['"%s" %s %s'] of the request
    line, the code and ['-']. *)
Definition log_request (address_string log_date_time_string requestline : str)
    (code : N) : str :=
  log_message address_string log_date_time_string
    (dquote :: requestline ++ dquote :: lit " " ++ str_of_N code ++ lit " -").

End HttpLog.

(** ** [Lib/http/server.py]: [BaseHTTPRequestHandler.parse_request] *)

Module ParseRequest.
Import HttpServer.

(** [str(raw, 'iso-8859-1')] *)
Definition latin1 (raw : bytes) : str := map UrllibQuote.code raw.

(** [s.split()]: the words between runs of white space; [acc] is the
    word being read, its last character first. *)
Fixpoint split_ws_from (acc : str) (s : str) : list str :=
  match s with
  | [] => match acc with [] => [] | _ => [rev acc] end
  | c :: r =>
      if isspace c then
        match acc with
        | [] => split_ws_from [] r
        | _ => rev acc :: split_ws_from [] r
        end
      else split_ws_from (c :: acc) r
  end.

Definition split_ws (s : str) : list str := split_ws_from [] s.

(** What [http.client.parse_headers] does on the lines after the request
    line. *)
Inductive parsed_headers :=
| Headers (get : str -> option str)  (* a message; [get] is its [headers.get] *)
| LineTooLong (err : str)            (* it raises [LineTooLong]; [str(err)] *)
| HTTPException (err : str).         (* it raises another [HTTPException] *)

(** The handler's fields when [parse_request] returns [True]. *)
Record accepted := {
  command : str;
  path : str;
  request_version : str;
  close_connection : bool;
  headers : str -> option str;
  (** [handle_expect_100] was called. *)
  sent_continue : bool;
}.

Inductive outcome :=
| ReturnFalse                                        (* nothing was sent *)
| SendError (code : N) (message : str) (explain : option str)
    (* [send_error(...)], then [False] *)
| ReturnTrue (a : accepted).

Definition protocol_version : str := lit "HTTP/1.0".
Definition default_request_version : str := lit "HTTP/0.9".

Definition BAD_REQUEST : N := 400.
Definition HTTP_VERSION_NOT_SUPPORTED : N := 505.
Definition REQUEST_HEADER_FIELDS_TOO_LARGE : N := 431.

(** Python's [>=] on strings. *)
Definition str_geb (a b : str) : bool := negb (str_ltb a b).

(** Python's [>=] on pairs of integers. *)
Definition pair_geb (a b : Z * Z) : bool :=
  (fst b <? fst a)%Z || ((fst a =? fst b)%Z && (snd b <=? snd a)%Z).

Section Parse.
(** [int(s)]; [None] when it raises [ValueError]. *)
Variable int : str -> option Z.
(** ['%r' % s] and [str.lower]. *)
Variable repr : str -> str.
Variable lower : str -> str.

(** The [try] block on [version]: [base_version_number] and
    [version_number], or [None] for [ValueError] and [IndexError]. *)
Definition parse_version (version : str) : option (str * (Z * Z)) :=
  if negb (has_prefix (lit "HTTP/") version) then None
  else
    match snd (split_once slash version) with
    | None => None
    | Some base_version_number =>
        match split dot base_version_number with
        | [major; minor] =>
            match int major, int minor with
            | Some a, Some b => Some (base_version_number, (a, b))
            | _, _ => None
            end
        | _ => None
        end
    end.

(** [parse_request] from the headers on, with the request line
    accepted. *)
Definition parse_rest (command path request_version : str)
    (close_connection : bool) (hdrs : parsed_headers) : outcome :=
  let path :=
    if has_prefix [slash; slash] path
    then slash :: lstrip_by (N.eqb slash) path
    else path in
  match hdrs with
  | LineTooLong err =>
      SendError REQUEST_HEADER_FIELDS_TOO_LARGE (lit "Line too long")
        (Some err)
  | HTTPException err =>
      SendError REQUEST_HEADER_FIELDS_TOO_LARGE (lit "Too many headers")
        (Some err)
  | Headers get =>
      let conntype := match get (lit "Connection") with
                      | Some v => v | None => [] end in
      let close_connection :=
        if str_eqb (lower conntype) (lit "close") then true
        else if str_eqb (lower conntype) (lit "keep-alive")
                && str_geb protocol_version (lit "HTTP/1.1")
        then false
        else close_connection in
      let expect := match get (lit "Expect") with
                    | Some v => v | None => [] end in
      let sent_continue :=
        str_eqb (lower expect) (lit "100-continue")
        && str_geb protocol_version (lit "HTTP/1.1")
        && str_geb request_version (lit "HTTP/1.1") in
      ReturnTrue {| command := command; path := path;
                    request_version := request_version;
                    close_connection := close_connection;
                    headers := get;
                    sent_continue := sent_continue |}
  end.

(** [parse_request] once the words are counted and, for three or more,
    the version is read. *)
Definition parse_words (requestline : str) (words : list str)
    (request_version : str) (close_connection : bool)
    (hdrs : parsed_headers) : outcome :=
  match words with
  | [command; path] =>
      if negb (str_eqb command (lit "GET")) then
        SendError BAD_REQUEST
          (lit "Bad HTTP/0.9 request type (" ++ repr command ++ lit ")") None
      else parse_rest command path request_version true hdrs
  | [command; path; _] =>
      parse_rest command path request_version close_connection hdrs
  | _ =>
      SendError BAD_REQUEST
        (lit "Bad request syntax (" ++ repr requestline ++ lit ")") None
  end.

(** [parse_request(self)] on the line read and on what parsing the
    headers gives. *)
Definition parse_request (raw_requestline : bytes) (hdrs : parsed_headers)
    : outcome :=
  let requestline := latin1 raw_requestline in
  let requestline :=
    rstrip_by (fun c => N.eqb c 13 || N.eqb c 10) requestline in
  let words := split_ws requestline in
  match words with
  | [] => ReturnFalse
  | _ =>
      if (3 <=? List.length words)%nat then
        let version := last words [] in
        match parse_version version with
        | None =>
            SendError BAD_REQUEST
              (lit "Bad request version (" ++ repr version ++ lit ")") None
        | Some (base_version_number, version_number) =>
            let close_connection :=
              if pair_geb version_number (1, 1)%Z
                 && str_geb protocol_version (lit "HTTP/1.1")
              then false else true in
            if pair_geb version_number (2, 0)%Z then
              SendError HTTP_VERSION_NOT_SUPPORTED
                (lit "Invalid HTTP version (" ++ base_version_number
                 ++ lit ")") None
            else
              parse_words requestline words version close_connection hdrs
        end
      else
        parse_words requestline words default_request_version true hdrs
  end.

End Parse.

End ParseRequest.

(** ** A concrete platform and directory tree

    The working directory is [/srv/www]; it holds [notes.txt],
    [archive.bin], a directory [docs] with two files, and a directory [etc]
    with a file [passwd].  The names and requests of the examples are
    ASCII without escapes, so [unquote] returns before its codec part. *)

Module Example.
Import HttpServer.

Definition bytes_of (s : string) : bytes :=
  map byte_of_ascii (list_ascii_of_string s).

Definition ascii_bytes (s : str) : bytes :=
  map (fun c => byte_of_ascii (ascii_of_N c)) s.

Definition codec : Urllib.Codec :=
  {| Urllib.unquote_escapes_surrogatepass := fun _ => None;
     Urllib.unquote_escapes_replace := fun s => s;
     Urllib.check_bracketed_netloc := fun _ => false;
     Urllib.checknetloc_nfkc := fun _ => false |}.

Definition mime (path : str) : option str :=
  let ext := snd (Posixpath.splitext path) in
  if str_eqb ext (lit ".txt") then Some (lit "text/plain")
  else if str_eqb ext (lit ".html") then Some (lit "text/html")
  else None.

Definition platform : Platform :=
  {| HttpServer.codec := codec;
     getcwd := lit "/srv/www";
     str_lower := Urllib.ascii_lower;
     mimetypes_guess_type := mime;
     parsedate_to_datetime := fun _ => None;
     version_string := lit "SimpleHTTP/0.6 Python/3.11.2";
     date_time_string := fun _ => lit "Thu, 01 Jan 1970 00:00:00 GMT";
     getfilesystemencoding := lit "utf-8";
     encode_surrogateescape := fun s => Ok (ascii_bytes s);
     encode_utf8_replace := ascii_bytes;
     quote := fun s => s;
     repr := fun s => lit "'" ++ s ++ lit "'" |}.

Definition regular (content : string) : file :=
  {| f_read := bytes_of content;
     f_stat := {| st_size := N.of_nat (String.length content);
                  st_mtime := 0 |} |}.

Definition files : list (str * file) :=
  [ (lit "/srv/www/notes.txt", regular "hello");
    (lit "/srv/www/archive.bin", regular "0123");
    (lit "/srv/www/docs/b.txt", regular "b");
    (lit "/srv/www/docs/A.txt", regular "a");
    (lit "/srv/www/etc/passwd", regular "inside the root") ].

Definition dirs : list (str * list str) :=
  [ (lit "/srv/www",
     [lit "notes.txt"; lit "docs"; lit "etc"; lit "archive.bin"]);
    (lit "/srv/www/docs", [lit "b.txt"; lit "A.txt"]);
    (lit "/srv/www/etc", [lit "passwd"]) ].

(** A directory is found with or without a trailing slash, a file only
    without. *)
Definition strip_slash (p : str) : str := rstrip_by (N.eqb slash) p.

Fixpoint assoc {A} (k : str) (m : list (str * A)) : option A :=
  match m with
  | [] => None
  | (k', v) :: m' => if str_eqb k k' then Some v else assoc k m'
  end.

Definition enoent : exn :=
  raise_ OSError (lit "[Errno 2] No such file or directory").
Definition eisdir : exn := raise_ OSError (lit "[Errno 21] Is a directory").

Definition filesystem : FileSystem :=
  {| isdir := fun p => match assoc (strip_slash p) dirs with
                       | Some _ => true | None => false end;
     isfile := fun p => match assoc p files with
                        | Some _ => true | None => false end;
     islink := fun _ => false;
     listdir := fun p => match assoc (strip_slash p) dirs with
                         | Some names => Ok names
                         | None => Raise enoent
                         end;
     open_rb := fun p => match assoc p files with
                         | Some f => Ok f
                         | None =>
                             match assoc (strip_slash p) dirs with
                             | Some _ => Raise eisdir
                             | None => Raise enoent
                             end
                         end |}.

(** A request [command path HTTP/1.0] without validators. *)
Definition req (cmd path : string) : request :=
  {| command := lit cmd; path := lit path;
     request_version := lit "HTTP/1.0";
     if_modified_since := None; has_if_none_match := false |}.

(** The handler class on this platform and tree. *)
Definition handler : request -> result response :=
  handle_method platform filesystem.

Definition reply (cmd path : string) : result response :=
  handler (req cmd path).

End Example.

(** Clients for the examples. *)

Module Clients.
Import HttpServer SocketServer.

Definition handshake_failure : exn :=
  raise_ SSLError (lit "[SSL] handshake failure").

(** Its handshake fails. *)
Definition failing : connection :=
  {| tcp_accept := Ok tt; tls := Failed handshake_failure; client := Eof |}.

(** It sends [GET path HTTP/1.0]. *)
Definition fetching (path : string) : connection :=
  {| tcp_accept := Ok tt; tls := Completed;
     client := Parsed (Example.req "GET" path) |}.

(** It completes the handshake and closes. *)
Definition leaving : connection :=
  {| tcp_accept := Ok tt; tls := Completed; client := Eof |}.

(** It completes the handshake and stays, silent. *)
Definition silent : connection :=
  {| tcp_accept := Ok tt; tls := Completed; client := Silent |}.

End Clients.

(** Hosts for the examples. *)

Module ExampleWorld.
Import HttpServer SocketServer Script.

(** A host on which the name [YOURADRESS] resolves, the port is free and
    the two PEM files are a valid pair; [arrivals] come in. *)
Definition world (arrivals : list connection) : World :=
  {| platform := Example.platform;
     filesystem := Example.filesystem;
     socket_socket := Ok tt;
     socket_bind := fun _ _ => Ok tt;
     socket_listen := Ok tt;
     load_cert_chain := fun _ _ => Ok tt;
     wrap_socket := Ok tt;
     Script.arrivals := arrivals |}.

Definition eaddrinuse : exn :=
  raise_ OSError (lit "[Errno 98] Address already in use").

(** The same host with the port taken by another listener. *)
Definition port_taken : World :=
  {| platform := Example.platform;
     filesystem := Example.filesystem;
     socket_socket := Ok tt;
     socket_bind := fun _ _ => Raise eaddrinuse;
     socket_listen := Ok tt;
     load_cert_chain := fun _ _ => Ok tt;
     wrap_socket := Ok tt;
     Script.arrivals := [] |}.

Definition gaierror : exn :=
  raise_ OSError (lit "[Errno -2] Name or service not known").

(** A host on which the name [YOURADRESS] does not resolve. *)
Definition name_unknown : World :=
  {| platform := Example.platform;
     filesystem := Example.filesystem;
     socket_socket := Ok tt;
     socket_bind := fun host _ =>
       if str_eqb host (lit "YOURADRESS") then Raise gaierror else Ok tt;
     socket_listen := Ok tt;
     load_cert_chain := fun _ _ => Ok tt;
     wrap_socket := Ok tt;
     Script.arrivals := [] |}.

Definition no_cert : exn :=
  raise_ OSError (lit "[Errno 2] No such file or directory").

(** The same host without [cert.pem]. *)
Definition cert_missing : World :=
  {| platform := Example.platform;
     filesystem := Example.filesystem;
     socket_socket := Ok tt;
     socket_bind := fun _ _ => Ok tt;
     socket_listen := Ok tt;
     load_cert_chain := fun _ _ => Raise no_cert;
     wrap_socket := Ok tt;
     Script.arrivals := [Clients.fetching "/notes.txt"] |}.

End ExampleWorld.

(** * Properties

    The predicates the statements below are made of. *)

Module Props.
Import HttpServer SocketServer Script.

(** A plain file or directory name: not empty, without a slash, and
    neither [.] nor [..]. *)
Definition simple_name (w : str) : Prop :=
  w <> [] /\ ~ In slash w /\ w <> Posixpath.curdir /\ w <> Posixpath.pardir.

(** The path names that lie under [root] by their spelling: [root]
    itself, extended by plain names and by trailing slashes. *)
Inductive inside_root (root : str) : str -> Prop :=
| inside_here : inside_root root root
| inside_name p w :
    inside_root root p -> simple_name w ->
    inside_root root (Posixpath.join p w)
| inside_slash p :
    inside_root root p -> inside_root root (p ++ [slash]).


(** Whether the status line and the headers are written. *)
Definition head_of (req : request) : bool :=
  negb (str_eqb (request_version req) (lit "HTTP/0.9")).

(** What the file object that [send_head] returns for [req] holds: the
    bytes of a file opened at a path under the working directory, or the
    page [list_directory] makes of the names of a directory at such a
    path. *)
Definition under_root (pf : Platform) (fs : FileSystem) (req : request)
    (data : bytes) : Prop :=
  exists p, inside_root (getcwd pf) p /\
    ((exists f, open_rb fs p = Ok f /\ data = f_read f)
     \/ (exists names,
           listdir fs p = Ok names /\ isdir fs p = true
           /\ encode_surrogateescape pf
                (sep_join newline
                   (listing_lines pf fs req p
                      (sort_by (str_lower pf) names)))
              = Ok data)).




(** Reading a trace with at most one connection open: [Some st] when
    every event belongs to the connection that is open, no connection is
    accepted while one is open, and [st] is the connection left open. *)
Fixpoint one_at_a_time (open : option nat) (evs : list SocketServer.event)
    : option (option nat) :=
  match evs with
  | [] => Some open
  | ev :: rest =>
      match ev, open with
      | Accepted id, None => one_at_a_time (Some id) rest
      | AcceptFailed _, None => one_at_a_time None rest
      | Closed id, Some cur =>
          if Nat.eqb id cur then one_at_a_time None rest else None
      | (HandshakeFailed id _ | HandshakeDone id | Replied id _
         | LoggedTimeout id _ | ErrorReport id _), Some cur =>
          if Nat.eqb id cur then one_at_a_time open rest else None
      | _, _ => None
      end
  end.

(** The connection is accepted and its handshake raises an [OSError]
    ([ssl.SSLError] and the socket errors are). *)
Definition handshake_fails (c : connection) : Prop :=
  tcp_accept c = Ok tt /\ exists e, tls c = Failed e /\ is_OSError e = true.

(** The events of a start-up in which every call returns. *)
Definition startup_events : list effect :=
  [ Socket; Bind IP_ADDRESS PORT; Listen; SSLContext;
    LoadCertChain (lit "cert.pem") (lit "key.pem"); WrapSocket;
    Print (lit "Serving on https://" ++ IP_ADDRESS ++ lit ":"
           ++ str_of_Z PORT) ].

Definition is_serve (ev : effect) : bool :=
  match ev with
  | Serve _ => true
  | _ => false
  end.

End Props.

(** The predicates of the further statements. *)

Module Props2.
Import HttpServer SocketServer Script.

(** A character that cannot end an attribute value or a tag: a letter, a
    digit, or one of [_ . - ~ / %]. *)
Definition url_char (c : char) : bool :=
  ((65 <=? c) && (c <=? 90) || (97 <=? c) && (c <=? 122)
   || (48 <=? c) && (c <=? 57)
   || (c =? 95) || (c =? 46) || (c =? 45) || (c =? 126)
   || (c =? 47) || (c =? 37))%N.

(** [unquote_to_bytes] read off the pieces of its input between the
    percent signs. *)
Definition unquote_bits (s : bytes) : bytes :=
  match UrllibQuote.bsplit UrllibQuote.percent_byte s with
  | first :: items => first ++ flat_map UrllibQuote.unquote_item items
  | [] => s
  end.

(** Each element's key is not smaller than the key before it. *)
Fixpoint ordered_by (key : str -> str) (l : list str) : bool :=
  match l with
  | a :: (b :: _) as rest =>
      negb (str_ltb (key b) (key a)) && ordered_by key rest
  | _ => true
  end.

(** The request [req] made with the method [cmd]. *)
Definition as_command (cmd : str) (req : request) : request :=
  {| command := cmd; path := path req;
     request_version := request_version req;
     if_modified_since := if_modified_since req;
     has_if_none_match := has_if_none_match req |}.

(** The request [req] for the path [p]. *)
Definition with_path (p : str) (req : request) : request :=
  {| command := command req; path := p;
     request_version := request_version req;
     if_modified_since := if_modified_since req;
     has_if_none_match := has_if_none_match req |}.

(** A reply with nothing written after its head. *)
Definition without_body (r : response) : response :=
  {| status := status r; reason := reason r;
     head_written := head_written r; headers := headers r; body := [] |}.

(** A request path without its query and fragment: what stands before
    the first [?] and, of that, before the first [#]. *)
Definition url_path (p : str) : str :=
  fst (split_once hash (fst (split_once question p))).

(** Every file that opens has the size [os.fstat] reports. *)
Definition sizes_agree (fs : FileSystem) : Prop :=
  forall p f, open_rb fs p = Ok f ->
    st_size (f_stat f) = N.of_nat (List.length (f_read f)).

(** The headers of a reply that reach the wire: those handed to
    [send_header] when the head is written, none for HTTP/0.9. *)
Definition sent_headers (r : response) : list (str * str) :=
  if head_written r then headers r else [].

(** What [send_head] leaves to send: the bytes written so far and those
    of the file object it returns. *)
Definition to_send (h : response) (o : option bytes) : bytes :=
  body h ++ match o with Some data => data | None => [] end.

(** A word of a request line: not empty, without white space. *)
Definition word (w : str) : Prop :=
  w <> [] /\ forallb (fun c => negb (isspace c)) w = true.

(** The path [parse_request] stores for the second word of the line. *)
Definition stored_path (path : str) : str :=
  if has_prefix [slash; slash] path
  then slash :: lstrip_by (N.eqb slash) path
  else path.



End Props2.

(** Request lines for the examples. *)

Module RequestExamples.
Import HttpServer.

(** [int] on a string of decimal digits. *)
Definition int_digits (s : str) : option Z :=
  match s with
  | [] => None
  | _ =>
      if forallb (fun c => (48 <=? c) && (c <=? 57))%N s
      then Some (fold_left (fun a c => a * 10 + Z.of_N (c - 48))%Z s 0%Z)
      else None
  end.

(** The headers of a client that asks to keep the connection. *)
Definition keep_alive : ParseRequest.parsed_headers :=
  ParseRequest.Headers
    (fun k => if str_eqb k (lit "Connection") then Some (lit "keep-alive")
              else if str_eqb k (lit "Expect") then Some (lit "100-continue")
              else None).

(** A platform on which every date a client sends reads as the epoch. *)
Definition dated : Platform :=
  {| HttpServer.codec := codec Example.platform;
     getcwd := getcwd Example.platform;
     str_lower := str_lower Example.platform;
     mimetypes_guess_type := mimetypes_guess_type Example.platform;
     parsedate_to_datetime :=
       fun _ => Some {| dt_seconds := 0; dt_tzinfo := Utc |};
     version_string := version_string Example.platform;
     date_time_string := date_time_string Example.platform;
     getfilesystemencoding := getfilesystemencoding Example.platform;
     encode_surrogateescape := encode_surrogateescape Example.platform;
     encode_utf8_replace := encode_utf8_replace Example.platform;
     quote := quote Example.platform;
     repr := repr Example.platform |}.

(** [GET path HTTP/1.0] with an [If-Modified-Since] header. *)
Definition conditional (path : string) : request :=
  {| command := lit "GET"; path := lit path;
     request_version := lit "HTTP/1.0";
     if_modified_since := Some (lit "Thu, 01 Jan 1970 00:00:00 GMT");
     has_if_none_match := false |}.

Definition parse (line : string) : ParseRequest.outcome :=
  ParseRequest.parse_request int_digits (repr Example.platform)
    Urllib.ascii_lower (Example.bytes_of line) keep_alive.

End RequestExamples.

(** Clients and handlers that raise. *)

Module Raising.
Import HttpServer SocketServer.





End Raising.

(** ** Strings *)

Section StringFacts.
Import PyStr.

Lemma str_eqb_eq (a b : str) : str_eqb a b = true <-> a = b.
Proof.
  revert b; induction a as [|x a IH]; intros [|y b]; simpl;
    try (split; [discriminate | congruence]); try tauto.
  rewrite andb_true_iff, N.eqb_eq, IH. split.
  - intros [-> ->]; reflexivity.
  - intros H; injection H as -> ->; auto.
Qed.

Lemma str_eqb_neq (a b : str) : str_eqb a b = false <-> a <> b.
Proof.
  rewrite <- str_eqb_eq. destruct (str_eqb a b); split; congruence.
Qed.

(** No word of [s.split(c)] holds the separator. *)
Lemma split_no_sep (c : char) (s w : str) :
  In w (split c s) -> ~ In c w.
Proof.
  revert w; induction s as [|x r IH]; simpl; intros w Hw.
  - destruct Hw as [<- | []]. intros [].
  - destruct (N.eqb_spec x c) as [-> | Hne].
    + destruct Hw as [<- | Hw]; [intros [] | auto].
    + destruct (split c r) as [|w0 ws] eqn:E.
      * destruct Hw as [<- | []]. intros [H | []]; congruence.
      * destruct Hw as [<- | Hw].
        -- intros [H | H]; [congruence |].
           apply (IH w0); [left; reflexivity | exact H].
        -- apply IH; right; exact Hw.
Qed.

End StringFacts.

(** ** Paths under the served directory *)

Module Inside.
Import HttpServer Props.

Lemma upto_last_slash_none (w : str) :
  ~ In slash w -> Posixpath.upto_last_slash w = [].
Proof.
  induction w as [|x r IH]; simpl; intros H; [reflexivity|].
  rewrite IH by tauto.
  destruct (N.eqb_spec x slash); [exfalso; apply H; left; assumption|].
  reflexivity.
Qed.

(** [os.path.dirname] of a word without a slash is empty. *)
Lemma dirname_no_slash (w : str) :
  ~ In slash w -> Posixpath.dirname w = [].
Proof.
  intros H. unfold Posixpath.dirname.
  rewrite (upto_last_slash_none _ H). reflexivity.
Qed.

Section Translate.
Variable pf : Platform.

(** The loop of [translate_path] keeps the path under the root when its
    words are non-empty and hold no slash. *)
Lemma translate_words_inside (words : list str) : forall p,
  inside_root (getcwd pf) p ->
  Forall (fun w => w <> [] /\ ~ In slash w) words ->
  inside_root (getcwd pf) (translate_words p words).
Proof.
  induction words as [|w ws IH]; intros p Hp Hall; simpl; [exact Hp|].
  inversion Hall as [|? ? [Hne Hns] Hall']; subst.
  rewrite (dirname_no_slash _ Hns). simpl.
  destruct (str_eqb w Posixpath.curdir) eqn:E1; simpl; [apply IH; assumption|].
  destruct (str_eqb w Posixpath.pardir) eqn:E2; simpl; [apply IH; assumption|].
  apply IH; [|assumption].
  apply inside_name; [assumption|].
  repeat split; try assumption; apply str_eqb_neq; assumption.
Qed.

Lemma translate_path_inside (path : str) :
  inside_root (getcwd pf) (translate_path pf path).
Proof.
  unfold translate_path.
  set (q := Posixpath.normpath _).
  assert (H : inside_root (getcwd pf)
                (translate_words (directory pf)
                   (filter nonempty (split slash q)))).
  { apply translate_words_inside; [apply inside_here|].
    apply Forall_forall. intros w Hw. apply filter_In in Hw.
    destruct Hw as [Hin Hne]. split.
    - intros ->; discriminate.
    - eapply split_no_sep; eassumption. }
  destruct (endswith slash (rstrip _)); [apply inside_slash|]; exact H.
Qed.

End Translate.

End Inside.

(** ** The spelling of a path under the root *)

Module Spelling.
Import HttpServer Props Inside.








End Spelling.

(** ** What a reply's body is made of *)

Module Replies.
Import HttpServer Props Inside.

Section Facts.
Variable pf : Platform.
Variable fs : FileSystem.

Lemma status_send_error (req : request) (code : N) (m : option str) :
  status (send_error pf req code m) = code.
Proof.
  unfold send_error. destruct (responses code) as [[s l]|];
    repeat match goal with |- context [if ?b then _ else _] => destruct b end;
    reflexivity.
Qed.

Lemma head_send_error (req : request) (code : N) (m : option str) :
  head_written (send_error pf req code m) = head_of req.
Proof.
  unfold send_error. destruct (responses code) as [[s l]|];
    repeat match goal with |- context [if ?b then _ else _] => destruct b end;
    reflexivity.
Qed.

Lemma simple_index_html : simple_name (lit "index.html").
Proof.
  repeat split; try discriminate.
  simpl. unfold slash. intuition discriminate.
Qed.

Lemma simple_index_htm : simple_name (lit "index.htm").
Proof.
  repeat split; try discriminate.
  simpl. unfold slash. intuition discriminate.
Qed.


Lemma list_directory_source (req : request) (p : str) h o :
  inside_root (getcwd pf) p -> isdir fs p = true ->
  list_directory pf fs req p = Ok (h, o) ->
  match o with
  | Some data => status h = OK /\ body h = [] /\ under_root pf fs req data
  | None => status h = NOT_FOUND
  end.
Proof.
  intros Hp Hd. unfold list_directory.
  destruct (listdir fs p) as [names|e] eqn:El.
  - destruct (encode_surrogateescape pf _) as [enc|e] eqn:Ee; simpl;
      [|discriminate].
    intros H; injection H as <- <-. repeat split.
    exists p. split; [exact Hp|]. right. exists names. auto.
  - destruct (is_OSError e); [|discriminate].
    intros H; injection H as <- <-. apply status_send_error.
Qed.

Lemma find_some_in {A} (f : A -> bool) (l : list A) (x : A) :
  find f l = Some x -> In x l.
Proof. intros H. apply find_some in H. tauto. Qed.


Lemma send_head_file_written (req : request) (p : str) h o :
  send_head_file pf fs req p = Ok (h, o) -> head_written h = head_of req.
Proof.
  unfold send_head_file. destruct (endswith slash p).
  { intros H; injection H as <- <-. apply head_send_error. }
  destruct (open_rb fs p) as [f|e].
  - destruct (not_modified pf req (f_stat f));
      intros H; injection H as <- <-; reflexivity.
  - destruct (is_OSError e); [|discriminate].
    intros H; injection H as <- <-. apply head_send_error.
Qed.

Lemma list_directory_written (req : request) (p : str) h o :
  list_directory pf fs req p = Ok (h, o) -> head_written h = head_of req.
Proof.
  unfold list_directory. destruct (listdir fs p) as [names|e].
  - destruct (encode_surrogateescape pf _) as [enc|e]; cbn [Exn.bind];
      [|discriminate].
    intros H; injection H as <- <-. reflexivity.
  - destruct (is_OSError e); [|discriminate].
    intros H; injection H as <- <-. apply head_send_error.
Qed.

Lemma send_head_written (req : request) h o :
  send_head pf fs req = Ok (h, o) -> head_written h = head_of req.
Proof.
  unfold send_head. destruct (isdir fs _).
  - destruct (Urllib.urlsplit (codec pf) (path req)) as [parts|e];
      cbn [Exn.bind]; [|discriminate].
    destruct (endswith slash (Urllib.path parts)); cbn [negb].
    + destruct (find (isfile fs) _) as [index|].
      * apply send_head_file_written.
      * apply list_directory_written.
    + intros H; injection H as <- <-. reflexivity.
  - apply send_head_file_written.
Qed.

(** The status line and the headers of a reply are written unless the
    request is HTTP/0.9. *)
Lemma handle_method_written (req : request) (r : response) :
  handle_method pf fs req = Ok r -> head_written r = head_of req.
Proof.
  unfold handle_method, do_GET, do_HEAD.
  destruct (str_eqb (command req) (lit "GET")).
  - destruct (send_head pf fs req) as [[h o]|e] eqn:E; cbn [Exn.bind];
      [|discriminate].
    pose proof (@send_head_written _ _ _ E) as Hw.
    destruct o; intros H; injection H as <-; exact Hw.
  - destruct (str_eqb (command req) (lit "HEAD")).
    + destruct (send_head pf fs req) as [[h o]|e] eqn:E; cbn [Exn.bind];
        [|discriminate].
      pose proof (@send_head_written _ _ _ E) as Hw.
      intros H; injection H as <-; exact Hw.
    + intros H; injection H as <-. apply head_send_error.
Qed.

End Facts.

End Replies.

Module TraversalFacts.
Import HttpServer Props Inside Replies Spelling.





End TraversalFacts.

Section TraversalClaim.
Import HttpServer Props Inside Replies Spelling TraversalFacts.




End TraversalClaim.

(** ** Files, listings and redirects (C2, C10) *)

Module Serving.
Import HttpServer Props Inside Replies.



Section Facts.
Variable pf : Platform.
Variable fs : FileSystem.







End Facts.

End Serving.

Section ServingClaim.
Import HttpServer Props Inside Replies Serving.




End ServingClaim.

Section RedirectClaim.
Import HttpServer Props Inside Replies Serving.




End RedirectClaim.

(** ** The serve loop (C4, C7, C9) *)

Module Loop.
Import HttpServer SocketServer Props.

Lemma one_at_a_time_app (a b : list event) : forall open st,
  one_at_a_time open a = Some st ->
  one_at_a_time open (a ++ b) = one_at_a_time st b.
Proof.
  induction a as [|ev a IH]; simpl; intros open st H.
  - injection H as <-. reflexivity.
  - destruct ev, open as [cur|]; try discriminate;
      try (destruct (Nat.eqb id cur); [|discriminate]); eauto.
Qed.

Section Facts.
Variable pf : Platform.
Variable h : request -> result response.

(** The events of a handler run all belong to its connection. *)
Lemma handle_one_request_own (id : nat) (c : request_line) evs o :
  handle_one_request pf h id c = (evs, o) ->
  one_at_a_time (Some id) evs = Some (Some id).
Proof.
  unfold handle_one_request, catch_timeout, timeout.
  destruct c as [| |e| | |r|req].
  - intros H; injection H as <- <-; reflexivity.
  - intros H; injection H as <- <-; reflexivity.
  - destruct (is_TimeoutError e); intros H; injection H as <- <-; simpl;
      rewrite ?Nat.eqb_refl; reflexivity.
  - intros H; injection H as <- <-; simpl; rewrite Nat.eqb_refl; reflexivity.
  - intros H; injection H as <- <-; reflexivity.
  - intros H; injection H as <- <-; simpl; rewrite Nat.eqb_refl; reflexivity.
  - destruct (h req) as [r|e].
    + intros H; injection H as <- <-; simpl; rewrite Nat.eqb_refl; reflexivity.
    + destruct (is_TimeoutError e); intros H; injection H as <- <-; simpl;
        rewrite ?Nat.eqb_refl; reflexivity.
Qed.

(** One pass of [_handle_request_noblock] from a state with no connection
    open: when it returns, none is open. *)
Lemma handle_request_noblock_serial (id : nat) (c : connection) evs o :
  handle_request_noblock pf h id c = (evs, o) ->
  exists st, one_at_a_time None evs = Some st
             /\ (o = Returns -> st = None).
Proof.
  unfold handle_request_noblock, get_request.
  destruct (tcp_accept c) as [u|e].
  - destruct (tls c) as [|e|].
    + unfold process_request, finish_request, handle, shutdown_request.
      destruct (handle_one_request pf h id (client c)) as [evs' o'] eqn:E.
      pose proof (@handle_one_request_own _ _ _ _ E) as Hown.
      destruct o' as [|e|].
      * intros H; injection H as <- <-. exists None. split; [|reflexivity].
        cbn [app one_at_a_time]. rewrite Nat.eqb_refl.
        rewrite (@one_at_a_time_app _ _ _ _ Hown). simpl.
        rewrite Nat.eqb_refl. reflexivity.
      * destruct (is_Exception e); intros H; injection H as <- <-;
          exists None; (split; [|reflexivity]);
          cbn [app one_at_a_time]; rewrite Nat.eqb_refl;
          rewrite (@one_at_a_time_app _ _ _ _ Hown); simpl;
          rewrite ?Nat.eqb_refl; reflexivity.
      * intros H; injection H as <- <-. exists (Some id).
        split; [|discriminate].
        cbn [app one_at_a_time]. rewrite Nat.eqb_refl. exact Hown.
    + destruct (is_OSError e || is_ValueError e) eqn:Ec;
        destruct (is_OSError e) eqn:Eo; try discriminate;
        intros H; injection H as <- <-; simpl; rewrite ?Nat.eqb_refl;
        eexists; (split; [reflexivity|]); try discriminate; reflexivity.
    + intros H; injection H as <- <-. exists (Some id).
      split; [reflexivity | discriminate].
  - destruct (is_OSError e); intros H; injection H as <- <-;
      exists None; split; reflexivity.
Qed.

(** A connection whose handshake raises an [OSError]: it is closed and
    the pass returns. *)
Lemma failed_handshake_pass (id : nat) (c : connection) (e : exn) :
  tcp_accept c = Ok tt -> tls c = Failed e -> is_OSError e = true ->
  handle_request_noblock pf h id c
  = ([Accepted id; HandshakeFailed id e; Closed id], Returns).
Proof.
  intros Ha Ht He. unfold handle_request_noblock, get_request.
  rewrite Ha, Ht, He. cbn [orb]. rewrite He. reflexivity.
Qed.

End Facts.

End Loop.

Section ServeLoopClaims.
Import HttpServer SocketServer Props Loop.

(** C4: a connection whose TLS handshake fails is closed and the loop
    goes on with the connections after it, whose events and outcome are
    what they are without it; when every connection that arrives fails
    its handshake, the loop is left waiting for the next one. *)
Theorem handshake_failure_dropped
    (pf : Platform) (h : request -> result response) (id : nat)
    (c : connection) (e : exn)
    (rest : list connection) :
  tcp_accept c = Ok tt -> tls c = Failed e -> is_OSError e = true ->
  serve_from pf h id (c :: rest)
  = ([Accepted id; HandshakeFailed id e; Closed id]
       ++ fst (serve_from pf h (S id) rest),
     snd (serve_from pf h (S id) rest))
  /\ (Forall handshake_fails rest ->
      snd (serve_from pf h id (c :: rest)) = Waiting).
Proof.
  intros Ha Ht He.
  assert (Heq : serve_from pf h id (c :: rest)
                = ([Accepted id; HandshakeFailed id e; Closed id]
                     ++ fst (serve_from pf h (S id) rest),
                   snd (serve_from pf h (S id) rest))).
  { cbn [serve_from]. rewrite (@failed_handshake_pass pf h id c e Ha Ht He).
    destruct (serve_from pf h (S id) rest); reflexivity. }
  split; [exact Heq|].
  rewrite Heq. cbn [snd]. clear. generalize (S id).
  induction rest as [|c' rest IH]; intros n Hall; [reflexivity|].
  inversion Hall as [|? ? (Ha & e & Ht & He) Hall']; subst.
  cbn [serve_from]. rewrite (@failed_handshake_pass pf h n c' e Ha Ht He).
  specialize (IH (S n) Hall').
  destruct (serve_from pf h (S n) rest); exact IH.
Qed.

Lemma handshake_failure_dropped_witness :
  serve_from Example.platform Example.handler 0
    [Clients.failing; Clients.fetching "/nothing"]
  = ([Accepted 0; HandshakeFailed 0 Clients.handshake_failure; Closed 0]
       ++ fst (serve_from Example.platform Example.handler 1
                 [Clients.fetching "/nothing"]),
     Waiting).
Proof.
  exact (proj1 (@handshake_failure_dropped Example.platform
                  Example.handler 0 Clients.failing
                  Clients.handshake_failure [Clients.fetching "/nothing"]
                  eq_refl eq_refl eq_refl)).
Defined.

(** C7: in every trace of the serve loop the connections come one at a
    time: a connection is accepted only when none is open, every event
    belongs to the connection that is open, and a connection stays open
    until its [Closed]. *)
Theorem connections_handled_serially
    (pf : Platform) (h : request -> result response)
    (arrivals : list connection) :
  exists st,
    one_at_a_time None (fst (serve_forever pf h arrivals)) = Some st.
Proof.
  unfold serve_forever. generalize 0.
  induction arrivals as [|c rest IH]; intros id; simpl.
  - exists None; reflexivity.
  - destruct (handle_request_noblock pf h id c) as [evs o] eqn:E.
    destruct (@handle_request_noblock_serial _ _ _ _ _ _ E)
      as (st & Hst & Hret).
    destruct o as [|e|].
    + destruct (serve_from pf h (S id) rest) as [evs' o'] eqn:E'.
      destruct (IH (S id)) as (st' & Hst'). rewrite E' in Hst'.
      exists st'. simpl. rewrite (@one_at_a_time_app _ _ _ _ Hst).
      rewrite (Hret eq_refl). exact Hst'.
    + exists st; exact Hst.
    + exists st; exact Hst.
Qed.

(** C9, as the claim states it, fails: a client that completes the
    handshake and then stays connected without sending leaves the server
    inside the read on that connection; the connection is not closed and
    the next one is not accepted. *)
Lemma silent_client_blocks_server :
  serve_forever Example.platform Example.handler
    [Clients.silent; Clients.fetching "/notes.txt"]
  = ([Accepted 0; HandshakeDone 0], Blocked 0).
Proof. reflexivity. Qed.

(** C9, amended: when a client completes the handshake and closes the
    connection without sending a byte, the server closes the connection
    and goes on with the next one; while such a client stays connected
    and silent the server waits in the read, which has no timeout. *)
Theorem idle_client_released_on_close
    (pf : Platform) (h : request -> result response) (id : nat)
    (c : connection)
    (rest : list connection) :
  tcp_accept c = Ok tt -> tls c = Completed ->
  (client c = Eof ->
   serve_from pf h id (c :: rest)
   = ([Accepted id; HandshakeDone id; Closed id]
        ++ fst (serve_from pf h (S id) rest),
      snd (serve_from pf h (S id) rest)))
  /\ (client c = Silent ->
      serve_from pf h id (c :: rest)
      = ([Accepted id; HandshakeDone id], Blocked id)).
Proof.
  intros Ha Ht. split; intros Hc; cbn [serve_from];
    unfold handle_request_noblock, get_request, process_request,
      finish_request, handle, handle_one_request, timeout;
    rewrite Ha, Ht, Hc; cbn.
  - destruct (serve_from pf h (S id) rest); reflexivity.
  - reflexivity.
Qed.

Lemma idle_client_released_on_close_witness :
  serve_from Example.platform Example.handler 0 [Clients.leaving]
  = ([Accepted 0; HandshakeDone 0; Closed 0], Waiting).
Proof.
  exact (proj1 (@idle_client_released_on_close Example.platform
                  Example.handler 0 Clients.leaving [] eq_refl eq_refl)
           eq_refl).
Defined.

End ServeLoopClaims.

(** ** The script (C3, C5, C6, C8) *)

Module ScriptFacts.
Import HttpServer SocketServer Script Props.

Lemma uncaught_status_nonzero (e : exn) : uncaught_status e <> 0%Z.
Proof. unfold uncaught_status. destruct (is_Exception e); discriminate. Qed.

Lemma startup_ok (w : World) :
  socket_socket w = Ok tt -> socket_bind w IP_ADDRESS PORT = Ok tt ->
  socket_listen w = Ok tt ->
  load_cert_chain w (lit "cert.pem") (lit "key.pem") = Ok tt ->
  wrap_socket w = Ok tt ->
  startup w = (startup_events, Ok tt).
Proof.
  intros H1 H2 H3 H4 H5.
  unfold startup, httpd, context, HTTPServer, seq, call, except_reraise.
  cbn [fst snd]. rewrite H1, H2, H3, H4, H5. reflexivity.
Qed.

(** Start-up causes no event of the serve loop. *)
Lemma startup_no_serve (w : World) :
  forallb (fun ev => negb (is_serve ev)) (fst (startup w)) = true.
Proof.
  unfold startup, httpd, context, HTTPServer, seq, call, except_reraise.
  cbn [fst snd].
  destruct (socket_socket w) as [[]|]; [|reflexivity].
  destruct (socket_bind w IP_ADDRESS PORT) as [[]|]; [|reflexivity].
  destruct (socket_listen w) as [[]|]; [|reflexivity].
  destruct (load_cert_chain w _ _) as [[]|]; [|reflexivity].
  destruct (wrap_socket w) as [[]|]; reflexivity.
Qed.

(** When loading the certificate chain raises, start-up raises. *)
Lemma startup_cert_raises (w : World) (e : exn) :
  load_cert_chain w (lit "cert.pem") (lit "key.pem") = Raise e ->
  exists e', snd (startup w) = Raise e'
    /\ (socket_socket w = Ok tt -> socket_bind w IP_ADDRESS PORT = Ok tt ->
        socket_listen w = Ok tt ->
        e' = e
        /\ fst (startup w)
           = [ Socket; Bind IP_ADDRESS PORT; Listen; SSLContext;
               LoadCertChain (lit "cert.pem") (lit "key.pem") ]).
Proof.
  intros Hc.
  unfold startup, httpd, context, HTTPServer, seq, call, except_reraise.
  cbn [fst snd]. rewrite Hc.
  destruct (socket_socket w) as [[]|e1];
    [|exists e1; split; [reflexivity | discriminate]].
  destruct (socket_bind w IP_ADDRESS PORT) as [[]|e2];
    [|exists e2; split; [reflexivity | discriminate]].
  destruct (socket_listen w) as [[]|e3];
    [|exists e3; split; [reflexivity | discriminate]].
  exists e. split; [reflexivity|]. intros _ _ _. split; reflexivity.
Qed.

(** The run in which [bind] raises. *)
Lemma bind_raises_run (w : World) (e : exn) :
  socket_socket w = Ok tt ->
  socket_bind w IP_ADDRESS PORT = Raise e ->
  run w = ([Socket; Bind IP_ADDRESS PORT; CloseListener; Traceback e],
           Exited (uncaught_status e)).
Proof.
  intros Hs Hb.
  unfold run, startup, httpd, context, HTTPServer, seq, call,
    except_reraise.
  cbn [fst snd]. rewrite Hs, Hb. reflexivity.
Qed.

End ScriptFacts.

Section ScriptClaims.
Import HttpServer SocketServer Script Props ScriptFacts.

(** C3: when loading the certificate chain and key raises, the process
    ends with a traceback on standard error and a status that is not 0,
    and no event of the serve loop comes before: no connection is
    accepted.  When the socket calls before it returned, the traceback is
    that of the exception [load_cert_chain] raised. *)
Theorem certificate_failure_is_fatal (w : World) (e : exn) :
  load_cert_chain w (lit "cert.pem") (lit "key.pem") = Raise e ->
  exists t e',
    run w = (t ++ [Traceback e'], Exited (uncaught_status e'))
    /\ uncaught_status e' <> 0%Z
    /\ forallb (fun ev => negb (is_serve ev)) t = true
    /\ (socket_socket w = Ok tt -> socket_bind w IP_ADDRESS PORT = Ok tt ->
        socket_listen w = Ok tt ->
        e' = e
        /\ t = [ Socket; Bind IP_ADDRESS PORT; Listen; SSLContext;
                 LoadCertChain (lit "cert.pem") (lit "key.pem") ]).
Proof.
  intros Hc.
  destruct (startup_cert_raises w Hc) as (e' & Hs & Hfirst).
  pose proof (startup_no_serve w) as Hno.
  unfold run. destruct (startup w) as [t r]. cbn [fst snd] in *. subst r.
  exists t, e'. split; [reflexivity|].
  split; [apply uncaught_status_nonzero|]. split; [exact Hno | exact Hfirst].
Qed.

Lemma certificate_failure_is_fatal_witness :
  run ExampleWorld.cert_missing
  = ([ Socket; Bind IP_ADDRESS PORT; Listen; SSLContext;
       LoadCertChain (lit "cert.pem") (lit "key.pem");
       Traceback ExampleWorld.no_cert ],
     Exited 1).
Proof.
  destruct (@certificate_failure_is_fatal ExampleWorld.cert_missing
              ExampleWorld.no_cert eq_refl)
    as (t & e' & Hrun & _ & _ & Hfirst).
  destruct (Hfirst eq_refl eq_refl eq_refl) as (-> & ->).
  exact Hrun.
Defined.

(** C5: when binding the configured address and port raises, the
    listening socket is closed and the process ends with the traceback of
    that exception on standard error and a status that is not 0; the
    serve loop is not entered. *)
Theorem bind_failure_is_fatal (w : World) (e : exn) :
  socket_socket w = Ok tt ->
  socket_bind w IP_ADDRESS PORT = Raise e ->
  run w = ([Socket; Bind IP_ADDRESS PORT; CloseListener; Traceback e],
           Exited (uncaught_status e))
  /\ uncaught_status e <> 0%Z.
Proof.
  intros Hs Hb. split; [|apply uncaught_status_nonzero].
  apply bind_raises_run; assumption.
Qed.

Lemma bind_failure_is_fatal_witness :
  run ExampleWorld.port_taken
  = ([Socket; Bind IP_ADDRESS PORT; CloseListener;
      Traceback ExampleWorld.eaddrinuse],
     Exited 1).
Proof.
  exact (proj1 (@bind_failure_is_fatal ExampleWorld.port_taken
                  ExampleWorld.eaddrinuse eq_refl eq_refl)).
Defined.

(** C6: when every call of the start-up returns, the process makes them
    in this order: the socket, its binding to the configured address and
    port, [listen], the TLS context, the certificate chain and key, the
    wrapping of the listening socket, the line
    [Serving on https://<address>:<port>] on standard output; the events
    of the serve loop follow, and, when an exception leaves the loop, its
    traceback. *)
Theorem startup_sequence (w : World) :
  socket_socket w = Ok tt -> socket_bind w IP_ADDRESS PORT = Ok tt ->
  socket_listen w = Ok tt ->
  load_cert_chain w (lit "cert.pem") (lit "key.pem") = Ok tt ->
  wrap_socket w = Ok tt ->
  exists tail,
    fst (run w)
    = [ Socket; Bind IP_ADDRESS PORT; Listen; SSLContext;
        LoadCertChain (lit "cert.pem") (lit "key.pem"); WrapSocket;
        Print (lit "Serving on " ++ lit "https://" ++ IP_ADDRESS ++ lit ":"
               ++ str_of_Z PORT) ]
      ++ map Serve
           (fst (serve_forever (platform w) (handler w) (arrivals w)))
      ++ tail
    /\ (tail = []
        \/ exists e,
             tail = [Traceback e]
             /\ snd (serve_forever (platform w) (handler w) (arrivals w))
                = Propagated e).
Proof.
  intros H1 H2 H3 H4 H5. unfold run.
  rewrite (startup_ok w H1 H2 H3 H4 H5).
  destruct (serve_forever (platform w) (handler w) (arrivals w))
    as [evs o].
  destruct o as [|id|e]; cbn [fst snd].
  - exists []. rewrite app_nil_r. split; [reflexivity | left; reflexivity].
  - exists []. rewrite app_nil_r. split; [reflexivity | left; reflexivity].
  - exists [Traceback e]. split; [reflexivity|].
    right. exists e. split; reflexivity.
Qed.

Lemma startup_sequence_witness :
  fst (run (ExampleWorld.world [Clients.leaving]))
  = [ Socket; Bind (lit "YOURADRESS") 8000; Listen; SSLContext;
      LoadCertChain (lit "cert.pem") (lit "key.pem"); WrapSocket;
      Print (lit "Serving on https://YOURADRESS:8000");
      Serve (Accepted 0); Serve (HandshakeDone 0); Serve (Closed 0) ].
Proof.
  destruct (@startup_sequence (ExampleWorld.world [Clients.leaving])
              eq_refl eq_refl eq_refl eq_refl eq_refl)
    as (tail & Hrun & [-> | (e & _ & He)]).
  - exact Hrun.
  - discriminate He.
Defined.

(** C8, as the claim states it, fails: with the address left at the
    placeholder, the process passes the placeholder to [bind] as it is.
    On a host where that name resolves it prints its line and serves; on
    a host where it does not, what standard error gets is the traceback
    of the resolver's error.  Neither run reports a configuration
    error. *)
Lemma placeholder_address_is_bound :
  IP_ADDRESS = lit "YOURADRESS"
  /\ run (ExampleWorld.world [])
     = ([ Socket; Bind (lit "YOURADRESS") 8000; Listen; SSLContext;
          LoadCertChain (lit "cert.pem") (lit "key.pem"); WrapSocket;
          Print (lit "Serving on https://YOURADRESS:8000") ],
        Running Waiting)
  /\ run ExampleWorld.name_unknown
     = ([ Socket; Bind (lit "YOURADRESS") 8000; CloseListener;
          Traceback ExampleWorld.gaierror ],
        Exited 1).
Proof. repeat split. Qed.

(** C8, amended: the script does not examine the address.  Once the
    socket exists, its next call is [bind] on the placeholder string and
    the port; when that call raises, the process ends as for any bind
    failure, with the traceback of the exception [bind] raised. *)
Theorem placeholder_address_passed_to_bind (w : World) :
  socket_socket w = Ok tt ->
  (exists t, fst (run w) = Socket :: Bind (lit "YOURADRESS") 8000 :: t)
  /\ (forall e,
        socket_bind w (lit "YOURADRESS") 8000%Z = Raise e ->
        run w = ([Socket; Bind (lit "YOURADRESS") 8000; CloseListener;
                  Traceback e],
                 Exited (uncaught_status e))).
Proof.
  intros Hs. split.
  - unfold run, startup, httpd, context, HTTPServer, seq, call,
      except_reraise.
    cbn [fst snd]. rewrite Hs.
    destruct (socket_bind w IP_ADDRESS PORT) as [[]|e];
      [|eexists; reflexivity].
    destruct (socket_listen w) as [[]|e]; [|eexists; reflexivity].
    destruct (load_cert_chain w _ _) as [[]|e]; [|eexists; reflexivity].
    destruct (wrap_socket w) as [[]|e]; [|eexists; reflexivity].
    destruct (serve_forever _ _ _) as [evs [|id|e]];
      eexists; reflexivity.
  - intros e Hb.
    exact (@bind_raises_run w e Hs Hb).
Qed.

Lemma placeholder_address_passed_to_bind_witness :
  run ExampleWorld.port_taken
  = ([Socket; Bind (lit "YOURADRESS") 8000; CloseListener;
      Traceback ExampleWorld.eaddrinuse],
     Exited 1).
Proof.
  exact (proj2 (@placeholder_address_passed_to_bind ExampleWorld.port_taken
                  eq_refl)
           ExampleWorld.eaddrinuse eq_refl).
Defined.

End ScriptClaims.

(** ** The embedding on concrete inputs *)

Section Checks.
Import HttpServer SocketServer Script.

Example normpath_climbs_no_higher_than_root :
  Posixpath.normpath (lit "/../../etc/passwd") = lit "/etc/passwd".
Proof. reflexivity. Qed.

Example normpath_keeps_leading_pardir :
  Posixpath.normpath (lit "a/../../b") = lit "../b".
Proof. reflexivity. Qed.

Example splitext_last_dot :
  Posixpath.splitext (lit "docs/t.tar.gz") = (lit "docs/t.tar", lit ".gz").
Proof. reflexivity. Qed.

Example translate_drops_pardir :
  translate_path Example.platform (lit "a/../../b/?x=1")
  = lit "/srv/www/b/".
Proof. reflexivity. Qed.

Example urlsplit_query :
  Urllib.urlsplit Example.codec (lit "/docs?sort=name#top")
  = Ok {| Urllib.scheme := []; Urllib.netloc := [];
          Urllib.path := lit "/docs"; Urllib.query := lit "sort=name";
          Urllib.fragment := lit "top" |}.
Proof. reflexivity. Qed.

Example listing_sorted_without_case :
  match Example.reply "GET" "/docs/" with
  | Ok r =>
      status r = 200%N
      /\ List.length (body r) = 267
      /\ In (lit "Content-Length", lit "267") (headers r)
  | Raise _ => False
  end.
Proof. simpl. repeat split. auto 10. Qed.

Example head_has_no_body :
  match Example.reply "HEAD" "/notes.txt" with
  | Ok r => status r = 200%N /\ body r = []
  | Raise _ => False
  end.
Proof. split; reflexivity. Qed.

Example file_behind_slash_is_missing :
  match Example.reply "GET" "/notes.txt/" with
  | Ok r => status r = 404%N
  | Raise _ => False
  end.
Proof. reflexivity. Qed.

Example request_then_wait :
  run (ExampleWorld.world [Clients.fetching "/nothing"; Clients.leaving])
  = (Props.startup_events
       ++ [ Serve (Accepted 0); Serve (HandshakeDone 0);
            Serve (Replied 0
                     (send_error Example.platform
                        (Example.req "GET" "/nothing") NOT_FOUND
                        (Some (lit "File not found"))));
            Serve (Closed 0);
            Serve (Accepted 1); Serve (HandshakeDone 1); Serve (Closed 1) ],
     Running Waiting).
Proof. reflexivity. Qed.

End Checks.

(** * Further properties

    ** Quoting and unquoting *)

Module QuoteFacts.
Import HttpServer UrllibQuote Props2.

Lemma byte_of_code_code (b : Byte.byte) : byte_of_code (code b) = b.
Proof.
  unfold byte_of_code, code.
  rewrite ascii_N_embedding. apply byte_of_ascii_of_byte.
Qed.

Lemma bsplit_not_nil (c : Byte.byte) (s : bytes) : bsplit c s <> [].
Proof.
  destruct s as [|x r]; simpl; [discriminate|].
  destruct (Byte.eqb x c); [discriminate|].
  destruct (bsplit c r); discriminate.
Qed.

Lemma bsplit_single (c : Byte.byte) (s w : bytes) :
  bsplit c s = [w] -> w = s.
Proof.
  revert w. induction s as [|x r IH]; simpl; intros w H.
  - injection H as <-. reflexivity.
  - destruct (Byte.eqb x c).
    + injection H as _ H. exfalso. exact (bsplit_not_nil _ _ H).
    + destruct (bsplit c r) as [|w0 ws] eqn:E.
      * exfalso. exact (bsplit_not_nil _ _ E).
      * injection H as <- ->. f_equal. apply IH. reflexivity.
Qed.

Lemma unquote_to_bytes_bits (s : bytes) : unquote_to_bytes s = unquote_bits s.
Proof.
  unfold unquote_to_bytes, unquote_bits.
  destruct s as [|x r]; [reflexivity|].
  destruct (bsplit percent_byte (x :: r)) as [|first [|item items]] eqn:E.
  - reflexivity.
  - simpl. rewrite app_nil_r. symmetry. eapply bsplit_single; eassumption.
  - reflexivity.
Qed.

(** A byte that is no percent sign is copied. *)
Lemma unquote_bits_plain (x : Byte.byte) (s : bytes) :
  Byte.eqb x percent_byte = false ->
  unquote_bits (x :: s) = x :: unquote_bits s.
Proof.
  intros Hx. unfold unquote_bits. simpl. rewrite Hx.
  destruct (bsplit percent_byte s) as [|w ws] eqn:E; [|reflexivity].
  exfalso. exact (bsplit_not_nil _ _ E).
Qed.

Lemma hexval_not_percent (a : Byte.byte) (x : N) :
  hexval a = Some x -> Byte.eqb a percent_byte = false.
Proof.
  destruct (Byte.eqb a percent_byte) eqn:E; [|reflexivity].
  apply Byte.byte_dec_bl in E. subst a. discriminate.
Qed.

(** A percent sign before two hexadecimal digits is their byte. *)
Lemma unquote_bits_escape (a b : Byte.byte) (x y : N) (s : bytes) :
  hexval a = Some x -> hexval b = Some y ->
  unquote_bits (percent_byte :: a :: b :: s)
  = byte_of_code (16 * x + y) :: unquote_bits s.
Proof.
  intros Ha Hb. unfold unquote_bits.
  cbn [bsplit]. replace (Byte.eqb percent_byte percent_byte) with true
    by reflexivity.
  rewrite (hexval_not_percent _ Ha), (hexval_not_percent _ Hb).
  destruct (bsplit percent_byte s) as [|w ws] eqn:E.
  { exfalso. exact (bsplit_not_nil _ _ E). }
  cbn [app flat_map unquote_item]. rewrite Ha, Hb. reflexivity.
Qed.

(** The escape of a byte reads back as that byte. *)
Lemma escape_reads_back (b : Byte.byte) :
  hexval (byte_of_code (hexdigit_upper (code b / 16))) = Some (code b / 16)%N
  /\ hexval (byte_of_code (hexdigit_upper (code b mod 16)))
     = Some (code b mod 16)%N
  /\ byte_of_code (16 * (code b / 16) + code b mod 16) = b.
Proof. destruct b; repeat split; vm_compute; reflexivity. Qed.

Lemma in_safe_not_percent (safe : str) (b : Byte.byte) :
  contains percent safe = false -> in_safe safe b = true ->
  Byte.eqb b percent_byte = false.
Proof.
  intros Hs Hin. destruct (Byte.eqb b percent_byte) eqn:E; [|reflexivity].
  apply Byte.byte_dec_bl in E. subst b. exfalso.
  unfold in_safe in Hin. cbn [always_safe] in Hin.
  apply orb_true_iff in Hin. destruct Hin as [Hin | Hin]; [discriminate|].
  apply existsb_exists in Hin. destruct Hin as (c & Hc & Hcc).
  apply andb_true_iff in Hcc. destruct Hcc as [_ Hcc].
  apply N.eqb_eq in Hcc.
  assert (Hp : contains percent safe = true).
  { unfold contains. apply existsb_exists. exists c. split; [exact Hc|].
    apply N.eqb_eq. rewrite Hcc. reflexivity. }
  congruence.
Qed.

Lemma ascii_encode_app (a b : str) :
  ascii_encode (a ++ b) = ascii_encode a ++ ascii_encode b.
Proof. apply map_app. Qed.

Lemma quoter_reads_back (safe : str) (bs : bytes) :
  contains percent safe = false ->
  unquote_bits (ascii_encode (flat_map (quoter safe) bs)) = bs.
Proof.
  intros Hs. induction bs as [|b bs IH]; [reflexivity|].
  cbn [flat_map]. rewrite ascii_encode_app.
  unfold quoter at 1. destruct (in_safe safe b) eqn:Hin.
  - change (ascii_encode [code b]) with [byte_of_code (code b)].
    rewrite byte_of_code_code. cbn [app].
    rewrite unquote_bits_plain by (eapply in_safe_not_percent; eassumption).
    rewrite IH. reflexivity.
  - destruct (escape_reads_back b) as (H1 & H2 & H3).
    change (ascii_encode
              [percent; hexdigit_upper (code b / 16);
               hexdigit_upper (code b mod 16)])
      with [percent_byte; byte_of_code (hexdigit_upper (code b / 16));
            byte_of_code (hexdigit_upper (code b mod 16))].
    cbn [app].
    rewrite (unquote_bits_escape _ _ _ H1 H2), H3, IH. reflexivity.
Qed.

Lemma all_safe_quoter (safe : str) (bs : bytes) :
  forallb (in_safe safe) bs = true ->
  flat_map (quoter safe) bs = map code bs.
Proof.
  induction bs as [|b bs IH]; simpl; [reflexivity|].
  intros H. apply andb_true_iff in H. destruct H as [Hb Hbs].
  unfold quoter at 1. rewrite Hb, IH by assumption. reflexivity.
Qed.

Lemma quote_from_bytes_quoter (bs : bytes) (safe : str) :
  quote_from_bytes bs safe = flat_map (quoter safe) bs.
Proof.
  unfold quote_from_bytes. destruct bs as [|b bs]; [reflexivity|].
  destruct (forallb (in_safe safe) (b :: bs)) eqn:E; [|reflexivity].
  symmetry. apply all_safe_quoter. exact E.
Qed.

Lemma quoter_url_chars (b : Byte.byte) :
  forallb url_char (quoter (lit "/") b) = true.
Proof. destruct b; vm_compute; reflexivity. Qed.

End QuoteFacts.

Section QuoteProperties.
Import HttpServer UrllibQuote Props2 QuoteFacts.

(** X1: unquoting what [quote_from_bytes] gives returns the bytes quoted,
    whatever they are, when the percent sign is not among the characters
    declared safe. *)
Theorem unquote_quote_round_trip (bs : bytes) (safe : str) :
  contains percent safe = false ->
  unquote_to_bytes (ascii_encode (quote_from_bytes bs safe)) = bs.
Proof.
  intros Hs. rewrite unquote_to_bytes_bits, quote_from_bytes_quoter.
  apply quoter_reads_back. exact Hs.
Qed.

Lemma unquote_quote_round_trip_witness :
  quote_from_bytes (Example.bytes_of "50% off?.txt") (lit "/")
  = lit "50%25%20off%3F.txt"
  /\ unquote_to_bytes (ascii_encode (lit "50%25%20off%3F.txt"))
     = Example.bytes_of "50% off?.txt".
Proof.
  split; [reflexivity|].
  exact (@unquote_quote_round_trip (Example.bytes_of "50% off?.txt")
           (lit "/") eq_refl).
Defined.

(** X2: with the default [safe='/'], every character of a quoted name is
    a letter, a digit or one of [_ . - ~ / %]: no quotation mark, angle
    bracket, ampersand, space or control character. *)
Theorem quoted_name_has_url_chars_only (bs : bytes) :
  forallb url_char (quote_from_bytes bs (lit "/")) = true.
Proof.
  rewrite quote_from_bytes_quoter.
  induction bs as [|b bs IH]; [reflexivity|].
  cbn [flat_map]. rewrite forallb_app, IH, quoter_url_chars. reflexivity.
Qed.

End QuoteProperties.

(** ** The log *)

Module LogFacts.
Import HttpServer HttpLog.

Lemma hexdigit_lower_range (n : N) :
  (n < 16)%N ->
  (48 <= hexdigit_lower n <= 57 \/ 97 <= hexdigit_lower n <= 102)%N.
Proof.
  intros Hn. unfold hexdigit_lower.
  destruct (N.ltb_spec n 10); lia.
Qed.

Lemma hexdigit_lower_inj (n m : N) :
  (n < 16)%N -> (m < 16)%N ->
  hexdigit_lower n = hexdigit_lower m -> n = m.
Proof.
  unfold hexdigit_lower. intros Hn Hm.
  destruct (N.ltb_spec n 10), (N.ltb_spec m 10); lia.
Qed.

Lemma not_control_range (c : char) :
  (32 <= c < 127)%N -> is_control c = false.
Proof.
  intros H. unfold is_control.
  destruct (N.ltb_spec c 32); [lia|].
  destruct (N.leb_spec 127 c); [lia|]. reflexivity.
Qed.

Lemma control_below_160 (c : char) : is_control c = true -> (c < 160)%N.
Proof.
  unfold is_control. intros H. apply orb_true_iff in H.
  destruct H as [H | H].
  - apply N.ltb_lt in H. lia.
  - apply andb_true_iff in H. destruct H as [_ H]. apply N.ltb_lt in H. lia.
Qed.

Lemma high_digit_small (c : char) : (c < 160)%N -> (c / 16 < 10)%N.
Proof. intros H. apply N.Div0.div_lt_upper_bound. lia. Qed.

(** What the table gives for a character holds no control character. *)
Lemma control_char_table_clean (c : char) :
  forallb (fun x => negb (is_control x)) (control_char_table c) = true.
Proof.
  unfold control_char_table.
  destruct (N.eqb c backslash); [reflexivity|].
  destruct (is_control c) eqn:Hc.
  - pose proof (control_below_160 _ Hc) as H160.
    pose proof (high_digit_small H160) as Hhi.
    assert (Hlo : (c mod 16 < 16)%N) by (apply N.mod_lt; lia).
    destruct (hexdigit_lower_range (n := c / 16)) as [H1 | H1]; [lia | |];
      destruct (hexdigit_lower_range Hlo) as [H2 | H2];
      unfold backslash; cbn [forallb];
      rewrite !not_control_range by lia; reflexivity.
  - cbn [forallb]. rewrite Hc. reflexivity.
Qed.

(** The three shapes of what the table gives. *)
Lemma control_char_table_cases (c : char) :
  (c = backslash /\ control_char_table c = [backslash; backslash])
  \/ (c <> backslash /\ (c < 160)%N
      /\ control_char_table c
         = [backslash; 120%N; hexdigit_lower (c / 16);
            hexdigit_lower (c mod 16)])
  \/ (c <> backslash /\ control_char_table c = [c]).
Proof.
  unfold control_char_table.
  destruct (N.eqb_spec c backslash) as [-> | Hne]; [left; auto|].
  destruct (is_control c) eqn:Hc.
  - right; left. auto using control_below_160.
  - right; right. auto.
Qed.

Lemma digits_determine (c d : char) :
  (c < 160)%N -> (d < 160)%N ->
  hexdigit_lower (c / 16) = hexdigit_lower (d / 16) ->
  hexdigit_lower (c mod 16) = hexdigit_lower (d mod 16) ->
  c = d.
Proof.
  intros Hc Hd H1 H2.
  apply hexdigit_lower_inj in H1;
    [| pose proof (high_digit_small Hc); lia
     | pose proof (high_digit_small Hd); lia].
  apply hexdigit_lower_inj in H2; [| apply N.mod_lt; lia | apply N.mod_lt; lia].
  rewrite (N.div_mod c 16), (N.div_mod d 16) by lia. congruence.
Qed.

(** No entry of the table begins another. *)
Lemma control_char_table_prefix (c d : char) (s t : str) :
  control_char_table c ++ s = control_char_table d ++ t -> c = d /\ s = t.
Proof.
  unfold backslash.
  destruct (control_char_table_cases c)
    as [[-> ->] | [(Hc & Hc160 & ->) | [Hc ->]]];
    destruct (control_char_table_cases d)
      as [[-> ->] | [(Hd & Hd160 & ->) | [Hd ->]]];
    unfold backslash in *; cbn [app]; intros H; injection H; intros; subst;
    try discriminate; try congruence; auto.
  split; [|reflexivity]. eapply digits_determine; eassumption.
Qed.

Lemma control_char_table_not_nil (c : char) : control_char_table c <> [].
Proof.
  destruct (control_char_table_cases c) as [[_ ->] | [(_ & _ & ->) | [_ ->]]];
    discriminate.
Qed.

End LogFacts.

Section LogProperties.
Import HttpServer HttpLog LogFacts.

(** X3: what [log_message] writes of a message holds no control
    character (none below 32, none from 127 to 159): a request cannot
    start a new log line or send an escape sequence to the terminal. *)
Theorem logged_message_has_no_control_character (message : str) :
  forallb (fun c => negb (is_control c)) (translate message) = true.
Proof.
  induction message as [|c m IH]; [reflexivity|].
  unfold translate in *. cbn [flat_map].
  rewrite forallb_app, IH, control_char_table_clean. reflexivity.
Qed.

(** X4: the escaping of the log loses nothing: two messages that are
    logged alike are the same message. *)
Theorem logged_message_determines_message (a b : str) :
  translate a = translate b -> a = b.
Proof.
  revert b. induction a as [|x a IH]; intros [|y b]; unfold translate;
    cbn [flat_map]; intros H.
  - reflexivity.
  - exfalso. symmetry in H. apply app_eq_nil in H.
    exact (control_char_table_not_nil _ (proj1 H)).
  - exfalso. apply app_eq_nil in H.
    exact (control_char_table_not_nil _ (proj1 H)).
  - apply control_char_table_prefix in H. destruct H as [-> H].
    f_equal. apply IH. exact H.
Qed.

Lemma logged_message_determines_message_witness :
  lit "a\b" = [97; 92; 98]%N.
Proof.
  exact (@logged_message_determines_message (lit "a\b") [97; 92; 98]%N
           eq_refl).
Defined.

End LogProperties.

(** ** The request line *)

Module ParseFacts.
Import HttpServer Props2.
Import ParseRequest.

Lemma protocol_is_old :
  str_geb protocol_version (lit "HTTP/1.1") = false.
Proof. reflexivity. Qed.

Lemma rev_not_nil {A} (x : A) (l : list A) : rev (x :: l) <> [].
Proof.
  simpl. intros H. apply app_eq_nil in H. destruct H as [_ H]. discriminate.
Qed.

Lemma forallb_rev {A} (f : A -> bool) (l : list A) :
  forallb f l = true -> forallb f (rev l) = true.
Proof.
  rewrite !forallb_forall. intros H x Hx. apply H. apply in_rev. exact Hx.
Qed.

(** [split()] gives words. *)
Lemma split_ws_from_words (s : str) : forall acc,
  forallb (fun c => negb (isspace c)) acc = true ->
  Forall word (split_ws_from acc s).
Proof.
  induction s as [|c r IH]; intros acc Hacc; simpl.
  - destruct acc as [|a acc']; constructor; [|constructor].
    split; [apply rev_not_nil | apply forallb_rev; exact Hacc].
  - destruct (isspace c) eqn:Hc.
    + destruct acc as [|a acc']; [apply IH; reflexivity|].
      constructor; [|apply IH; reflexivity].
      split; [apply rev_not_nil | apply forallb_rev; exact Hacc].
    + apply IH. simpl. rewrite Hc. exact Hacc.
Qed.

Lemma split_ws_words (s : str) : Forall word (split_ws s).
Proof. apply split_ws_from_words. reflexivity. Qed.

(** [lstrip] leaves no character of the kind it strips in front. *)
Lemma lstrip_by_head (p : char -> bool) (s : str) :
  match lstrip_by p s with
  | x :: _ => p x = false
  | [] => True
  end.
Proof.
  induction s as [|x r IH]; simpl; [exact I|].
  destruct (p x) eqn:E; [exact IH | exact E].
Qed.

Lemma lstrip_by_subset (p : char -> bool) (s : str) (x : char) :
  In x (lstrip_by p s) -> In x s.
Proof.
  induction s as [|y r IH]; simpl; [tauto|].
  destruct (p y); [right; auto | simpl; tauto].
Qed.

Lemma stored_path_single_slash (path : str) :
  has_prefix [slash; slash] (stored_path path) = false.
Proof.
  unfold stored_path. destruct (has_prefix [slash; slash] path) eqn:E;
    [|exact E].
  pose proof (lstrip_by_head (N.eqb slash) path) as H.
  cbn [has_prefix]. rewrite N.eqb_refl. cbn [andb].
  destruct (lstrip_by (N.eqb slash) path) as [|x r]; [reflexivity|].
  rewrite H. reflexivity.
Qed.

Lemma stored_path_word (path : str) : word path -> word (stored_path path).
Proof.
  intros [Hne Hws]. unfold stored_path.
  destruct (has_prefix [slash; slash] path); [|split; assumption].
  split; [discriminate|].
  cbn [forallb]. apply andb_true_iff. split; [reflexivity|].
  rewrite forallb_forall in *. intros x Hx. apply Hws.
  eapply lstrip_by_subset; eassumption.
Qed.

Section WithRuntime.
Variable int : str -> option Z.
Variable repr : str -> str.
Variable lower : str -> str.

Lemma parse_rest_accepted (c p v : str) (cc : bool) (hdrs : parsed_headers)
    (a : accepted) :
  parse_rest lower c p v cc hdrs = ReturnTrue a ->
  command a = c /\ path a = stored_path p /\ request_version a = v
  /\ sent_continue a = false
  /\ (cc = true -> close_connection a = true).
Proof.
  unfold parse_rest. fold (stored_path p).
  destruct hdrs as [get|err|err]; try discriminate.
  rewrite protocol_is_old, !andb_false_r. cbn [andb].
  intros H; injection H as <-. cbn.
  repeat split. intros ->.
  destruct (str_eqb _ _); reflexivity.
Qed.

Lemma parse_words_accepted (line : str) (words : list str) (v : str)
    (cc : bool) (hdrs : parsed_headers) (a : accepted) :
  parse_words repr lower line words v cc hdrs = ReturnTrue a ->
  exists c p more,
    words = c :: p :: more /\ (more = [] \/ exists w, more = [w])
    /\ command a = c /\ path a = stored_path p /\ request_version a = v
    /\ sent_continue a = false
    /\ (cc = true -> close_connection a = true)
    /\ (more = [] -> c = lit "GET").
Proof.
  unfold parse_words.
  destruct words as [|c [|p [|w [|w' more]]]]; try discriminate.
  - destruct (str_eqb c (lit "GET")) eqn:Ec; cbn [negb]; [|discriminate].
    intros H. apply parse_rest_accepted in H.
    destruct H as (H1 & H2 & H3 & H4 & H5).
    exists c, p, []. repeat split; auto.
    intros _. apply str_eqb_eq. exact Ec.
  - intros H. apply parse_rest_accepted in H.
    destruct H as (H1 & H2 & H3 & H4 & H5).
    exists c, p, [w]. repeat split; eauto. discriminate.
Qed.

(** What holds of every request [parse_request] accepts. *)
Lemma parse_request_accepted (raw : bytes) (hdrs : parsed_headers)
    (a : accepted) :
  parse_request int repr lower raw hdrs = ReturnTrue a ->
  exists c p more,
    split_ws (rstrip_by (fun c => N.eqb c 13 || N.eqb c 10) (latin1 raw))
    = c :: p :: more
    /\ (more = [] \/ exists w, more = [w])
    /\ command a = c /\ path a = stored_path p
    /\ sent_continue a = false /\ close_connection a = true
    /\ (more = [] ->
        c = lit "GET" /\ request_version a = default_request_version).
Proof.
  unfold parse_request.
  set (line := rstrip_by _ (latin1 raw)).
  destruct (split_ws line) as [|w0 ws] eqn:Ew; [discriminate|].
  destruct (3 <=? List.length (w0 :: ws))%nat eqn:E3.
  - destruct (parse_version int (last (w0 :: ws) [])) as [[base vn]|];
      [|discriminate].
    rewrite protocol_is_old, andb_false_r.
    destruct (pair_geb vn (2, 0)%Z); [discriminate|].
    intros H. apply parse_words_accepted in H.
    destruct H as (c & p & more & Hw & Hm & H1 & H2 & H3 & H4 & H5 & H6).
    exists c, p, more.
    split; [exact Hw|]. split; [exact Hm|]. split; [exact H1|].
    split; [exact H2|]. split; [exact H4|]. split; [apply H5; reflexivity|].
    intros ->. rewrite Hw in E3. discriminate.
  - intros H. apply parse_words_accepted in H.
    destruct H as (c & p & more & Hw & Hm & H1 & H2 & H3 & H4 & H5 & H6).
    exists c, p, more.
    split; [exact Hw|]. split; [exact Hm|]. split; [exact H1|].
    split; [exact H2|]. split; [exact H4|]. split; [apply H5; reflexivity|].
    intros Hmore. split; [apply H6; exact Hmore | exact H3].
Qed.

End WithRuntime.

End ParseFacts.

Section ParseProperties.
Import HttpServer Props2 ParseFacts.

(** X5: every request [parse_request] accepts leaves [close_connection]
    true, whatever its version and its [Connection] header, and
    [handle_expect_100] is not called: with [protocol_version] at
    ["HTTP/1.0"] a connection serves one request. *)
Theorem accepted_request_closes_connection
    (int : str -> option Z) (repr lower : str -> str) (raw : bytes)
    (hdrs : ParseRequest.parsed_headers) (a : ParseRequest.accepted) :
  ParseRequest.parse_request int repr lower raw hdrs
    = ParseRequest.ReturnTrue a ->
  ParseRequest.close_connection a = true
  /\ ParseRequest.sent_continue a = false.
Proof.
  intros H. apply parse_request_accepted in H.
  destruct H as (c & p & more & _ & _ & _ & _ & H1 & H2 & _). auto.
Qed.

Lemma accepted_request_closes_connection_witness :
  exists a,
    RequestExamples.parse "GET /notes.txt HTTP/1.1"
    = ParseRequest.ReturnTrue a
    /\ ParseRequest.close_connection a = true
    /\ ParseRequest.sent_continue a = false.
Proof.
  eexists. split; [reflexivity|].
  exact (@accepted_request_closes_connection RequestExamples.int_digits
           (HttpServer.repr Example.platform) Urllib.ascii_lower
           (Example.bytes_of "GET /notes.txt HTTP/1.1")
           RequestExamples.keep_alive _
           eq_refl).
Defined.

(** X6: the path of an accepted request never begins with two slashes:
    a run of slashes in front is stored as one. *)
Theorem accepted_path_has_one_leading_slash
    (int : str -> option Z) (repr lower : str -> str) (raw : bytes)
    (hdrs : ParseRequest.parsed_headers) (a : ParseRequest.accepted) :
  ParseRequest.parse_request int repr lower raw hdrs
    = ParseRequest.ReturnTrue a ->
  has_prefix [slash; slash] (ParseRequest.path a) = false.
Proof.
  intros H. apply parse_request_accepted in H.
  destruct H as (c & p & more & _ & _ & _ & -> & _).
  apply stored_path_single_slash.
Qed.

Lemma accepted_path_has_one_leading_slash_witness :
  exists a,
    RequestExamples.parse "GET ///docs//b.txt HTTP/1.0"
    = ParseRequest.ReturnTrue a
    /\ ParseRequest.path a = lit "/docs//b.txt"
    /\ has_prefix [slash; slash] (ParseRequest.path a) = false.
Proof.
  eexists. split; [reflexivity|]. split; [reflexivity|].
  exact (@accepted_path_has_one_leading_slash RequestExamples.int_digits
           (HttpServer.repr Example.platform) Urllib.ascii_lower
           (Example.bytes_of "GET ///docs//b.txt HTTP/1.0")
           RequestExamples.keep_alive _
           eq_refl).
Defined.

(** X7: the command and the path of an accepted request are not empty
    and hold no white space; a request line of two words is accepted
    only for [GET], as HTTP/0.9. *)
Theorem accepted_request_has_words
    (int : str -> option Z) (repr lower : str -> str) (raw : bytes)
    (hdrs : ParseRequest.parsed_headers) (a : ParseRequest.accepted) :
  ParseRequest.parse_request int repr lower raw hdrs
    = ParseRequest.ReturnTrue a ->
  word (ParseRequest.command a) /\ word (ParseRequest.path a)
  /\ (List.length
        (ParseRequest.split_ws
           (rstrip_by (fun c => N.eqb c 13 || N.eqb c 10)
              (ParseRequest.latin1 raw))) = 2 ->
      ParseRequest.command a = lit "GET"
      /\ ParseRequest.request_version a = lit "HTTP/0.9").
Proof.
  intros H. apply parse_request_accepted in H.
  destruct H as (c & p & more & Hw & Hm & -> & -> & _ & _ & H2).
  pose proof (ParseFacts.split_ws_words
                (rstrip_by (fun c => N.eqb c 13 || N.eqb c 10)
                   (ParseRequest.latin1 raw))) as Hall.
  rewrite Hw in *. inversion Hall as [|? ? Hc Hrest]; subst.
  inversion Hrest as [|? ? Hp _]; subst.
  split; [exact Hc|]. split; [apply stored_path_word; exact Hp|].
  intros Hlen. apply H2. destruct more; [reflexivity | discriminate].
Qed.

Lemma accepted_request_has_words_witness :
  exists a,
    RequestExamples.parse "GET /notes.txt"
    = ParseRequest.ReturnTrue a
    /\ word (ParseRequest.command a) /\ word (ParseRequest.path a)
    /\ ParseRequest.request_version a = lit "HTTP/0.9".
Proof.
  eexists. split; [reflexivity|].
  destruct (@accepted_request_has_words RequestExamples.int_digits
           (HttpServer.repr Example.platform) Urllib.ascii_lower
           (Example.bytes_of "GET /notes.txt") RequestExamples.keep_alive _
           eq_refl)
    as (Hc & Hp & H09).
  split; [exact Hc|]. split; [exact Hp|]. exact (proj2 (H09 eq_refl)).
Defined.

End ParseProperties.

(** ** Escaping, normal paths and the order of a listing *)

Module TextFacts.
Import HttpServer Props Props2.

Lemma replace_char_removes (c : char) (by_ s : str) :
  ~ In c by_ -> ~ In c (replace_char c by_ s).
Proof.
  intros Hby. unfold replace_char. intros Hin.
  apply in_flat_map in Hin. destruct Hin as (x & _ & Hx).
  destruct (N.eqb x c) eqn:E; [auto|].
  destruct Hx as [Hx | []]. subst x. rewrite N.eqb_refl in E. discriminate.
Qed.

Lemma replace_char_keeps_out (d c : char) (by_ s : str) :
  ~ In d s -> ~ In d by_ -> ~ In d (replace_char c by_ s).
Proof.
  intros Hs Hby. unfold replace_char. intros Hin.
  apply in_flat_map in Hin. destruct Hin as (x & Hxs & Hx).
  destruct (N.eqb x c); [auto|].
  destruct Hx as [-> | []]. auto.
Qed.

Lemma str_ltb_irrefl (a : str) : str_ltb a a = false.
Proof.
  induction a as [|x a IH]; [reflexivity|].
  simpl. rewrite N.ltb_irrefl, N.eqb_refl, IH. reflexivity.
Qed.

Lemma str_ltb_asym (a b : str) : str_ltb a b = true -> str_ltb b a = false.
Proof.
  revert b. induction a as [|x a IH]; intros [|y b]; simpl; try discriminate;
    try reflexivity.
  intros H. apply orb_true_iff in H. destruct H as [H | H].
  - apply N.ltb_lt in H.
    destruct (N.ltb_spec y x); [lia|].
    destruct (N.eqb_spec y x); [lia|]. reflexivity.
  - apply andb_true_iff in H. destruct H as [He H].
    apply N.eqb_eq in He. subst y.
    rewrite N.ltb_irrefl, N.eqb_refl. simpl. apply IH. exact H.
Qed.

Lemma insert_by_ordered (key : str -> str) (x : str) (l : list str) :
  ordered_by key l = true -> ordered_by key (insert_by key x l) = true.
Proof.
  induction l as [|y l IH]; [reflexivity|].
  intros Ho. cbn [insert_by].
  destruct (str_ltb (key y) (key x)) eqn:Eyx.
  - destruct l as [|z l'].
    + cbn. rewrite (str_ltb_asym _ _ Eyx). reflexivity.
    + cbn [ordered_by] in Ho. apply andb_true_iff in Ho.
      destruct Ho as [Hyz Hrest]. specialize (IH Hrest).
      cbn [insert_by] in *.
      destruct (str_ltb (key z) (key x)).
      * cbn [ordered_by]. rewrite Hyz. exact IH.
      * cbn [ordered_by] in *. rewrite (str_ltb_asym _ _ Eyx). exact IH.
  - cbn [ordered_by]. rewrite Eyx. exact Ho.
Qed.

(** Inserting puts an element before those of the same key. *)
Lemma insert_by_filter (key : str -> str) (k x : str) (l : list str) :
  filter (fun z => str_eqb (key z) k) (insert_by key x l)
  = filter (fun z => str_eqb (key z) k) (x :: l).
Proof.
  induction l as [|y l IH]; [reflexivity|].
  cbn [insert_by]. destruct (str_ltb (key y) (key x)) eqn:Eyx;
    [|reflexivity].
  cbn [filter] in *. rewrite IH.
  destruct (str_eqb (key x) k) eqn:Ex; [|reflexivity].
  destruct (str_eqb (key y) k) eqn:Ey; [|reflexivity].
  apply str_eqb_eq in Ex, Ey. rewrite Ex, Ey, str_ltb_irrefl in Eyx.
  discriminate.
Qed.

Lemma rev_repeat {A} (x : A) (n : nat) : rev (repeat x n) = repeat x n.
Proof.
  induction n as [|n IH]; [reflexivity|].
  simpl. rewrite IH. clear IH.
  induction n as [|n IH]; [reflexivity|]. simpl. rewrite IH. reflexivity.
Qed.

Lemma simple_not_special (w : str) :
  simple_name w -> str_in w [[]; Posixpath.curdir] = false
                   /\ str_eqb w Posixpath.pardir = false.
Proof.
  intros (Hne & _ & Hcur & Hpar). unfold str_in. cbn [existsb].
  rewrite !(proj2 (str_eqb_neq _ _)) by assumption. auto.
Qed.

(** The loop of [normpath]: [..] only in front, and only when the path
    has no initial slash. *)
Lemma normpath_comps_shape (init : nat) (comps : list str) :
  Forall (fun c => ~ In slash c) comps ->
  forall names_rev m,
    Forall simple_name names_rev -> (init <> 0 -> m = 0) ->
    exists m' names,
      Posixpath.normpath_comps init comps
        (names_rev ++ repeat Posixpath.pardir m)
      = repeat Posixpath.pardir m' ++ names
      /\ Forall simple_name names /\ (init <> 0 -> m' = 0).
Proof.
  induction 1 as [|comp rest Hns Hrest IH]; intros names_rev m Hnames Hm.
  - exists m, (rev names_rev). cbn [Posixpath.normpath_comps].
    rewrite rev_app_distr, rev_repeat. repeat split; [|exact Hm].
    apply Forall_rev. exact Hnames.
  - cbn [Posixpath.normpath_comps].
    destruct (str_in comp [[]; Posixpath.curdir]) eqn:Eskip;
      [apply IH; assumption|].
    destruct (str_eqb comp Posixpath.pardir) eqn:Epar.
    + cbn [negb orb].
      destruct names_rev as [|x ns].
      * cbn [app]. destruct m as [|m0].
        -- cbn [repeat]. destruct (Nat.eqb init 0) eqn:Ei.
           ++ cbn [andb orb].
              apply str_eqb_eq in Epar. subst comp.
              apply (IH [] 1); [constructor|].
              apply Nat.eqb_eq in Ei. intros; contradiction.
           ++ cbn [andb orb]. apply (IH [] 0); [constructor | auto].
        -- cbn [repeat].
           replace (str_eqb Posixpath.pardir Posixpath.pardir) with true
             by reflexivity.
           rewrite orb_true_r.
           apply str_eqb_eq in Epar. subst comp.
           apply (IH [] (S (S m0))); [constructor|].
           intros Hi. specialize (Hm Hi). discriminate.
      * cbn [app]. inversion Hnames as [|? ? Hx Hns']; subst.
        destruct (simple_not_special Hx) as [_ Hxp]. rewrite Hxp.
        rewrite andb_false_r. cbn [orb].
        apply IH; assumption.
    + cbn [negb orb].
      assert (Hsimple : simple_name comp).
      { unfold str_in in Eskip. cbn [existsb] in Eskip.
        apply orb_false_iff in Eskip. destruct Eskip as [E1 E2].
        rewrite orb_false_r in E2.
        repeat split; try assumption; apply str_eqb_neq; assumption. }
      apply (IH (comp :: names_rev) m); [constructor; assumption | exact Hm].
Qed.

End TextFacts.

Section TextProperties.
Import HttpServer Props Props2 TextFacts.

(** X8: what [html.escape(s, quote=False)] gives holds no [<] and no
    [>], whatever [s] is: a file name or a request path shown in a
    listing or an error page cannot open or close a tag. *)
Theorem escaped_text_has_no_angle_bracket (s : str) :
  ~ In 60%N (html_escape s) /\ ~ In 62%N (html_escape s).
Proof.
  unfold html_escape. split.
  - apply replace_char_keeps_out.
    + apply replace_char_removes. simpl. intuition discriminate.
    + simpl. intuition discriminate.
  - apply replace_char_removes. simpl. intuition discriminate.
Qed.

(** X9: [normpath] gives [.] or a normal form: at most two slashes, then
    components joined by single slashes, where [..] stands only in front
    and only when the path has no initial slash, and every other component
    is a plain name (not empty, not [.], not [..], without a slash). *)
Theorem normpath_normal_form (p : str) :
  Posixpath.normpath p = Posixpath.curdir
  \/ exists k m names,
       Posixpath.normpath p
       = repeat slash k
           ++ sep_join slash (repeat Posixpath.pardir m ++ names)
       /\ k <= 2
       /\ Forall simple_name names
       /\ (k <> 0 -> m = 0)
       /\ (startswith slash p = true -> k <> 0).
Proof.
  unfold Posixpath.normpath. destruct p as [|c p']; [left; reflexivity|].
  set (p := c :: p').
  set (k := if startswith slash p
            then if has_prefix [slash; slash] p
                    && negb (has_prefix [slash; slash; slash] p)
                 then 2 else 1
            else 0).
  assert (Hk : k <= 2 /\ (startswith slash p = true -> k <> 0)).
  { subst k. destruct (startswith slash p);
      [destruct (_ && _)|]; split; try lia; discriminate. }
  destruct (@normpath_comps_shape k (split slash p)) with
    (names_rev := @nil str) (m := 0) as (m & names & Hc & Hn & Hm).
  - apply Forall_forall. intros w Hw. eapply split_no_sep; eassumption.
  - constructor.
  - reflexivity.
  - cbn [app repeat] in Hc. rewrite Hc.
    destruct (repeat slash k ++ sep_join slash (repeat Posixpath.pardir m
                                                 ++ names)) eqn:E;
      [left; reflexivity|].
    right. exists k, m, names. rewrite E. tauto.
Qed.

(** X10: the names of a listing are in order: no name's key (its lower
    case form in [list_directory]) is smaller than the key of the name
    before it. *)
Theorem sorted_names_are_ordered (key : str -> str) (l : list str) :
  ordered_by key (sort_by key l) = true.
Proof.
  induction l as [|x l IH]; [reflexivity|].
  unfold sort_by in *. cbn [fold_right].
  apply insert_by_ordered. exact IH.
Qed.

(** X11: the sort is stable: the names that share a key stay in the
    order [os.listdir] gave them. *)
Theorem sorted_names_keep_order_of_equal_keys
    (key : str -> str) (k : str) (l : list str) :
  filter (fun z => str_eqb (key z) k) (sort_by key l)
  = filter (fun z => str_eqb (key z) k) l.
Proof.
  induction l as [|x l IH]; [reflexivity|].
  unfold sort_by in *. cbn [fold_right].
  rewrite insert_by_filter. cbn [filter]. rewrite IH. reflexivity.
Qed.

End TextProperties.

(** ** Replies *)

Module ReplyFacts.
Import HttpServer Props Props2 Inside Replies.

Lemma split_once_prefix (c x : char) (s : str) :
  In x (fst (split_once c s)) -> In x s.
Proof.
  induction s as [|y r IH]; simpl; [tauto|].
  destruct (N.eqb y c); [simpl; tauto|].
  destruct (split_once c r) as [h t]. simpl in *. tauto.
Qed.

Lemma split_once_fst_no_sep (c : char) (s : str) :
  ~ In c (fst (split_once c s)).
Proof.
  induction s as [|y r IH]; simpl; [tauto|].
  destruct (N.eqb_spec y c) as [-> | Hne]; [simpl; tauto|].
  destruct (split_once c r) as [h t]. simpl in *. intuition.
Qed.

Lemma split_once_nosep (c : char) (s : str) :
  ~ In c s -> split_once c s = (s, None).
Proof.
  induction s as [|y r IH]; simpl; intros H; [reflexivity|].
  destruct (N.eqb_spec y c) as [-> | Hne]; [exfalso; auto|].
  rewrite IH by tauto. reflexivity.
Qed.

(** The path before the query and the fragment has neither. *)
Lemma url_path_fixed (p : str) : url_path (url_path p) = url_path p.
Proof.
  unfold url_path at 1.
  assert (Hq : ~ In question (url_path p)).
  { unfold url_path. intros H. apply split_once_prefix in H.
    exact (@split_once_fst_no_sep _ _ H). }
  assert (Hh : ~ In hash (url_path p)).
  { unfold url_path. apply split_once_fst_no_sep. }
  rewrite (@split_once_nosep _ _ Hq). cbn [fst].
  rewrite (@split_once_nosep _ _ Hh). reflexivity.
Qed.

Section Facts.
Variable pf : Platform.
Variable fs : FileSystem.

(** [translate_path] reads the path before the query and fragment. *)
Lemma translate_path_url_path (p : str) :
  translate_path pf p = translate_path pf (url_path p).
Proof.
  unfold translate_path. fold (url_path p). fold (url_path (url_path p)).
  rewrite url_path_fixed. reflexivity.
Qed.

Lemma translate_path_trailing_slash (p : str) :
  endswith slash (rstrip (url_path p)) = true ->
  endswith slash (translate_path pf p) = true.
Proof.
  intros H. unfold translate_path. fold (url_path p). rewrite H.
  unfold endswith. rewrite rev_app_distr. reflexivity.
Qed.

(** An error reply to a request that is not [HEAD] carries its page, and
    says how long it is. *)
Lemma send_error_length (req : request) (code : N) (m : option str) :
  str_eqb (command req) (lit "HEAD") = false ->
  (200 <=? code)%N = true ->
  N.eqb code NO_CONTENT || N.eqb code RESET_CONTENT
    || N.eqb code NOT_MODIFIED = false ->
  In (lit "Content-Length",
      str_of_N (N.of_nat (List.length (body (send_error pf req code m)))))
     (headers (send_error pf req code m)).
Proof.
  intros Hc H200 Hno. unfold send_error.
  destruct (responses code) as [[s l]|]; rewrite H200, Hno, Hc;
    cbn [andb negb];
    match goal with
    | |- context [encode_utf8_replace pf ?x] =>
        destruct (encode_utf8_replace pf x) eqn:E
    end; cbn; rewrite ?E; auto 10.
Qed.

Lemma send_head_file_length (req : request) (p : str) h o :
  str_eqb (command req) (lit "HEAD") = false -> sizes_agree fs ->
  send_head_file pf fs req p = Ok (h, o) -> status h <> NOT_MODIFIED ->
  In (lit "Content-Length", str_of_N (N.of_nat (List.length (to_send h o))))
     (headers h).
Proof.
  intros Hc Hsz. unfold send_head_file, to_send.
  destruct (endswith slash p).
  { intros H _; injection H as <- <-. rewrite app_nil_r.
    apply send_error_length; auto. }
  destruct (open_rb fs p) as [f|e] eqn:Eo.
  - destruct (not_modified pf req (f_stat f)).
    + intros H Hst; injection H as <- <-. exfalso. apply Hst. reflexivity.
    + intros H _; injection H as <- <-. cbn [body app headers send_header
        send_response]. rewrite <- (Hsz _ _ Eo).
      rewrite ?in_app_iff. cbn [In]. auto 10.
  - destruct (is_OSError e); [|discriminate].
    intros H _; injection H as <- <-. rewrite app_nil_r.
    apply send_error_length; auto.
Qed.

Lemma list_directory_length (req : request) (p : str) h o :
  str_eqb (command req) (lit "HEAD") = false ->
  list_directory pf fs req p = Ok (h, o) ->
  In (lit "Content-Length", str_of_N (N.of_nat (List.length (to_send h o))))
     (headers h).
Proof.
  intros Hc. unfold list_directory, to_send.
  destruct (listdir fs p) as [names|e].
  - destruct (encode_surrogateescape pf _) as [enc|e]; cbn [Exn.bind];
      [|discriminate].
    intros H; injection H as <- <-.
    cbn [body app headers send_header send_response].
    rewrite ?in_app_iff. cbn [In]. auto 10.
  - destruct (is_OSError e); [|discriminate].
    intros H; injection H as <- <-. rewrite app_nil_r.
    apply send_error_length; auto.
Qed.

Lemma send_head_length (req : request) h o :
  str_eqb (command req) (lit "HEAD") = false -> sizes_agree fs ->
  send_head pf fs req = Ok (h, o) -> status h <> NOT_MODIFIED ->
  In (lit "Content-Length", str_of_N (N.of_nat (List.length (to_send h o))))
     (headers h).
Proof.
  intros Hc Hsz. unfold send_head. destruct (isdir fs _).
  - destruct (Urllib.urlsplit (codec pf) (path req)) as [parts|e];
      cbn [Exn.bind]; [|discriminate].
    destruct (endswith slash (Urllib.path parts)); cbn [negb].
    + destruct (find (isfile fs) _) as [index|].
      * apply send_head_file_length; assumption.
      * intros H _. revert H. apply list_directory_length; assumption.
    + intros H _; injection H as <- <-. unfold to_send.
      cbn [body app headers send_header send_response].
      rewrite ?in_app_iff. cbn [In]. auto 10.
  - apply send_head_file_length; assumption.
Qed.

(** A reply of 304 comes from a file that opened and that [not_modified]
    found not newer than the date the request gave. *)
Lemma send_head_file_304 (req : request) (p : str) h o :
  send_head_file pf fs req p = Ok (h, o) -> status h = NOT_MODIFIED ->
  o = None /\ body h = []
  /\ exists f, open_rb fs p = Ok f /\ not_modified pf req (f_stat f) = true.
Proof.
  unfold send_head_file. destruct (endswith slash p).
  { intros H Hst; injection H as <- <-.
    rewrite status_send_error in Hst. discriminate. }
  destruct (open_rb fs p) as [f|e].
  - destruct (not_modified pf req (f_stat f)) eqn:En.
    + intros H _; injection H as <- <-. repeat split. exists f. auto.
    + intros H Hst; injection H as <- <-. discriminate.
  - destruct (is_OSError e); [|discriminate].
    intros H Hst; injection H as <- <-.
    rewrite status_send_error in Hst. discriminate.
Qed.

Lemma send_head_304 (req : request) h o :
  send_head pf fs req = Ok (h, o) -> status h = NOT_MODIFIED ->
  o = None /\ body h = []
  /\ exists p f,
       inside_root (getcwd pf) p /\ open_rb fs p = Ok f
       /\ not_modified pf req (f_stat f) = true.
Proof.
  unfold send_head.
  pose proof (translate_path_inside pf (path req)) as Hin.
  destruct (isdir fs _) eqn:Ed.
  - destruct (Urllib.urlsplit (codec pf) (path req)) as [parts|e];
      cbn [Exn.bind]; [|discriminate].
    destruct (endswith slash (Urllib.path parts)); cbn [negb].
    + destruct (find (isfile fs) _) as [index|] eqn:Ef.
      * intros H Hst. apply find_some_in in Ef.
        destruct (send_head_file_304 _ _ H Hst) as (Ho & Hb & f & Hf & Hn).
        repeat split; try assumption. exists index, f.
        repeat split; try assumption.
        destruct Ef as [<- | [<- | []]]; apply inside_name;
          auto using simple_index_html, simple_index_htm.
      * intros H Hst. exfalso.
        pose proof (@list_directory_source pf fs req _ h o Hin Ed H) as Hs.
        destruct o as [d|].
        -- destruct Hs as (Hs & _). rewrite Hs in Hst. discriminate.
        -- rewrite Hs in Hst. discriminate.
    + intros H Hst; injection H as <- <-. discriminate.
  - intros H Hst.
    destruct (send_head_file_304 _ _ H Hst) as (Ho & Hb & f & Hf & Hn).
    repeat split; try assumption. exists (translate_path pf (path req)), f.
    auto.
Qed.

(** When [not_modified] says yes. *)
Lemma not_modified_true (req : request) (st : stat_result) :
  not_modified pf req st = true ->
  has_if_none_match req = false
  /\ exists v d,
       if_modified_since req = Some v
       /\ parsedate_to_datetime pf v = Some d
       /\ dt_tzinfo d <> OtherTz
       /\ (st_mtime st <= dt_seconds d)%Z.
Proof.
  unfold not_modified.
  destruct (if_modified_since req) as [v|]; [|discriminate].
  destruct (has_if_none_match req); [discriminate|].
  destruct (parsedate_to_datetime pf v) as [d|] eqn:Ep; [|discriminate].
  intros H. split; [reflexivity|]. exists v, d.
  split; [reflexivity|]. split; [exact Ep|].
  destruct (dt_tzinfo d) eqn:Et; cbn in H; rewrite ?Et in H;
    try discriminate;
    (split; [discriminate | apply Z.leb_le; exact H]).
Qed.

(** *** The path of the request enters only through [translate_path] *)

Lemma send_head_file_with_path (req : request) (q p : str) :
  send_head_file pf fs (with_path q req) p = send_head_file pf fs req p.
Proof. reflexivity. Qed.

Lemma send_head_not_dir (req : request) :
  isdir fs (translate_path pf (path req)) = false ->
  send_head pf fs req
  = send_head_file pf fs req (translate_path pf (path req)).
Proof. intros H. unfold send_head. rewrite H. reflexivity. Qed.

(** *** HEAD *)

Lemma send_error_head (req : request) (code : N) (m : option str) :
  send_error pf (as_command (lit "HEAD") req) code m
  = without_body (send_error pf (as_command (lit "GET") req) code m).
Proof.
  unfold send_error. destruct (responses code) as [[s l]|];
    destruct ((200 <=? code)%N && _); try reflexivity;
    match goal with
    | |- context [encode_utf8_replace pf ?x] =>
        destruct (encode_utf8_replace pf x)
    end; reflexivity.
Qed.

Lemma send_head_file_head (req : request) (p : str) :
  send_head_file pf fs (as_command (lit "HEAD") req) p
  = match send_head_file pf fs (as_command (lit "GET") req) p with
    | Ok (h, o) => Ok (without_body h, o)
    | Raise e => Raise e
    end.
Proof.
  unfold send_head_file. destruct (endswith slash p).
  { rewrite send_error_head. reflexivity. }
  destruct (open_rb fs p) as [f|e].
  - change (not_modified pf (as_command (lit "HEAD") req) (f_stat f))
      with (not_modified pf (as_command (lit "GET") req) (f_stat f)).
    destruct (not_modified pf _ (f_stat f)); reflexivity.
  - destruct (is_OSError e); [|reflexivity].
    rewrite send_error_head. reflexivity.
Qed.

Lemma list_directory_head (req : request) (p : str) :
  list_directory pf fs (as_command (lit "HEAD") req) p
  = match list_directory pf fs (as_command (lit "GET") req) p with
    | Ok (h, o) => Ok (without_body h, o)
    | Raise e => Raise e
    end.
Proof.
  unfold list_directory. destruct (listdir fs p) as [names|e].
  - destruct (encode_surrogateescape pf _) as [enc|e]; reflexivity.
  - destruct (is_OSError e); [|reflexivity].
    rewrite send_error_head. reflexivity.
Qed.

Lemma send_head_head (req : request) :
  send_head pf fs (as_command (lit "HEAD") req)
  = match send_head pf fs (as_command (lit "GET") req) with
    | Ok (h, o) => Ok (without_body h, o)
    | Raise e => Raise e
    end.
Proof.
  unfold send_head. cbn [path as_command].
  destruct (isdir fs _).
  - destruct (Urllib.urlsplit (codec pf) (path req)) as [parts|e];
      cbn [Exn.bind]; [|reflexivity].
    destruct (endswith slash (Urllib.path parts)); cbn [negb].
    + destruct (find (isfile fs) _) as [index|].
      * apply send_head_file_head.
      * apply list_directory_head.
    + reflexivity.
  - apply send_head_file_head.
Qed.

End Facts.

(** The files of the example tree have the sizes their [stat] gives. *)
Lemma example_sizes_agree : sizes_agree Example.filesystem.
Proof.
  intros p f. cbn [open_rb Example.filesystem].
  unfold Example.files. cbn [Example.assoc].
  repeat (destruct (str_eqb p _);
          [intros H; injection H as <-; reflexivity|]).
  destruct (Example.assoc _ _); discriminate.
Qed.

End ReplyFacts.

Section ReplyProperties.
Import HttpServer Props Props2 ReplyFacts.
Variable pf : Platform.
Variable fs : FileSystem.

(** X12: two requests that differ only in the query and the fragment of
    their paths get the same reply, when the path does not name a
    directory. *)
Theorem query_and_fragment_do_not_select_file (req : request) (p q : str) :
  url_path p = url_path q ->
  isdir fs (translate_path pf p) = false ->
  handle_method pf fs (with_path p req)
  = handle_method pf fs (with_path q req).
Proof.
  intros Hpq Hd.
  assert (Ht : translate_path pf q = translate_path pf p).
  { rewrite (translate_path_url_path pf q), (translate_path_url_path pf p).
    rewrite Hpq. reflexivity. }
  assert (Hs : send_head pf fs (with_path p req)
               = send_head pf fs (with_path q req)).
  { rewrite !send_head_not_dir; cbn [path with_path]; rewrite ?Ht;
      try assumption.
    rewrite !send_head_file_with_path. reflexivity. }
  unfold handle_method, do_GET, do_HEAD. cbn [command with_path].
  rewrite Hs. reflexivity.
Qed.

(** X13: GET and HEAD for a path that ends in a slash and does not name
    a directory are answered 404, whether or not a file of that name
    exists. *)
Theorem trailing_slash_on_file_is_not_found (req : request) :
  command req = lit "GET" \/ command req = lit "HEAD" ->
  endswith slash (rstrip (url_path (path req))) = true ->
  isdir fs (translate_path pf (path req)) = false ->
  exists r, handle_method pf fs req = Ok r /\ status r = NOT_FOUND.
Proof.
  intros Hc Hs Hd.
  assert (H : send_head pf fs req
              = Ok (send_error pf req NOT_FOUND
                      (Some (lit "File not found")), None)).
  { rewrite (@send_head_not_dir pf fs _ Hd). unfold send_head_file.
    rewrite (@translate_path_trailing_slash pf _ Hs). reflexivity. }
  unfold handle_method, do_GET, do_HEAD.
  destruct Hc as [-> | ->]; cbn [str_eqb lit]; rewrite H; cbn [Exn.bind];
    eexists; (split; [reflexivity|]); apply Replies.status_send_error.
Qed.

(** X14: when every file has the size its [stat] gives, the reply to a
    request other than HEAD whose version is not HTTP/0.9 is sent with a
    [Content-Length] header that gives the number of bytes of its body,
    unless the reply is 304.  The reply to an HTTP/0.9 request is sent
    without any header. *)
Theorem content_length_matches_body (req : request) (r : response) :
  sizes_agree fs ->
  command req <> lit "HEAD" ->
  handle_method pf fs req = Ok r ->
  status r <> NOT_MODIFIED ->
  (request_version req <> lit "HTTP/0.9" ->
   In (lit "Content-Length", str_of_N (N.of_nat (List.length (body r))))
      (sent_headers r))
  /\ (request_version req = lit "HTTP/0.9" -> sent_headers r = []).
Proof.
  intros Hsz Hc Hr Hst.
  pose proof (@Replies.handle_method_written pf fs req r Hr) as Hw.
  unfold sent_headers, head_of in *. rewrite Hw. split.
  2:{ intros ->. reflexivity. }
  intros Hv. apply str_eqb_neq in Hv. rewrite Hv. cbn [negb].
  revert Hr Hst.
  apply str_eqb_neq in Hc.
  unfold handle_method, do_GET. rewrite Hc.
  destruct (str_eqb (command req) (lit "GET")).
  - destruct (send_head pf fs req) as [[h o]|e] eqn:Eh; cbn [Exn.bind];
      [|discriminate].
    pose proof (@send_head_length pf fs req h o Hc Hsz Eh) as Hl.
    unfold to_send in Hl.
    destruct o as [data|]; intros H Hst; injection H as <-.
    + apply Hl. exact Hst.
    + rewrite app_nil_r in Hl. apply Hl. exact Hst.
  - intros H _; injection H as <-. apply send_error_length; auto.
Qed.

(** X15: a reply of 304 has no body, and is sent only when the request
    has no [If-None-Match] header, its [If-Modified-Since] header parses
    to a date, and a file under the working directory opened whose time
    of modification is not after that date. *)
Theorem not_modified_only_for_unchanged_file (req : request) (r : response) :
  handle_method pf fs req = Ok r ->
  status r = NOT_MODIFIED ->
  body r = [] /\ has_if_none_match req = false
  /\ exists v d p f,
       if_modified_since req = Some v
       /\ parsedate_to_datetime pf v = Some d
       /\ dt_tzinfo d <> OtherTz
       /\ inside_root (getcwd pf) p
       /\ open_rb fs p = Ok f
       /\ (st_mtime (f_stat f) <= dt_seconds d)%Z.
Proof.
  assert (Hhead : forall h o, send_head pf fs req = Ok (h, o) ->
            status h = NOT_MODIFIED ->
            o = None /\ body h = [] /\ has_if_none_match req = false
            /\ exists v d p f,
                 if_modified_since req = Some v
                 /\ parsedate_to_datetime pf v = Some d
                 /\ dt_tzinfo d <> OtherTz
                 /\ inside_root (getcwd pf) p
                 /\ open_rb fs p = Ok f
                 /\ (st_mtime (f_stat f) <= dt_seconds d)%Z).
  { intros h o Eh Hst.
    destruct (@send_head_304 pf fs req h o Eh Hst)
      as (Ho & Hb & p & f & Hin & Hf & Hn).
    destruct (@not_modified_true pf req _ Hn)
      as (Hm & v & d & Hv & Hd & Ht & Hle).
    split; [exact Ho|]. split; [exact Hb|]. split; [exact Hm|].
    exists v, d, p, f. auto 10. }
  unfold handle_method, do_GET, do_HEAD.
  destruct (str_eqb (command req) (lit "GET")).
  - destruct (send_head pf fs req) as [[h o]|e] eqn:Eh; cbn [Exn.bind];
      [|discriminate].
    destruct o as [data|]; intros H Hst; injection H as <-.
    + destruct (Hhead _ _ eq_refl Hst) as (Ho & _). discriminate.
    + destruct (Hhead _ _ eq_refl Hst) as (_ & Hb & Hrest).
      split; assumption.
  - destruct (str_eqb (command req) (lit "HEAD")).
    + destruct (send_head pf fs req) as [[h o]|e] eqn:Eh; cbn [Exn.bind];
        [|discriminate].
      intros H Hst; injection H as <-. cbn [fst] in *.
      destruct (Hhead _ _ eq_refl Hst) as (_ & Hb & Hrest).
      split; assumption.
    + intros H Hst; injection H as <-.
      rewrite Replies.status_send_error in Hst. discriminate.
Qed.

(** X16: when GET for a request is answered with the reply [r], the
    peer reading all of it, HEAD for the same request is answered with
    [r] without its body: same status, reason and headers, nothing
    written after them. *)
Theorem head_is_get_without_body (req : request) (r : response) :
  handle_method pf fs (as_command (lit "GET") req) = Ok r ->
  handle_method pf fs (as_command (lit "HEAD") req) = Ok (without_body r).
Proof.
  unfold handle_method, do_GET, do_HEAD. cbn [command as_command].
  change (str_eqb (lit "GET") (lit "GET")) with true.
  change (str_eqb (lit "HEAD") (lit "GET")) with false.
  change (str_eqb (lit "HEAD") (lit "HEAD")) with true.
  cbv iota. rewrite send_head_head.
  destruct (send_head pf fs (as_command (lit "GET") req)) as [[h [d|]]|e];
    cbn [Exn.bind fst]; intros H; [| |discriminate];
    injection H as <-; reflexivity.
Qed.

End ReplyProperties.

Section ReplyExamples.
Import HttpServer Props Props2.

Lemma query_and_fragment_do_not_select_file_witness :
  Example.reply "GET" "/notes.txt?x=1" = Example.reply "GET" "/notes.txt#top".
Proof.
  exact (@query_and_fragment_do_not_select_file
           Example.platform Example.filesystem
           (Example.req "GET" "/") (lit "/notes.txt?x=1")
           (lit "/notes.txt#top") eq_refl eq_refl).
Defined.

Lemma trailing_slash_on_file_is_not_found_witness :
  exists r,
    Example.reply "GET" "/notes.txt/" = Ok r /\ status r = 404%N.
Proof.
  exact (@trailing_slash_on_file_is_not_found Example.platform
           Example.filesystem (Example.req "GET" "/notes.txt/")
           (or_introl eq_refl) eq_refl eq_refl).
Defined.

Lemma content_length_matches_body_witness :
  exists r,
    Example.reply "GET" "/notes.txt" = Ok r
    /\ body r = Example.bytes_of "hello"
    /\ In (lit "Content-Length", lit "5") (sent_headers r).
Proof.
  eexists. split; [reflexivity|]. split; [reflexivity|].
  refine (proj1 (@content_length_matches_body Example.platform
                   Example.filesystem (Example.req "GET" "/notes.txt") _
                   ReplyFacts.example_sizes_agree _ eq_refl _) _);
    discriminate.
Defined.

Lemma not_modified_only_for_unchanged_file_witness :
  exists r,
    handle_method RequestExamples.dated Example.filesystem
      (RequestExamples.conditional "/notes.txt") = Ok r
    /\ status r = 304%N /\ body r = [].
Proof.
  eexists. split; [reflexivity|]. split; [reflexivity|].
  exact (proj1 (@not_modified_only_for_unchanged_file
                  RequestExamples.dated Example.filesystem
                  (RequestExamples.conditional "/notes.txt") _
                  eq_refl eq_refl)).
Defined.

Lemma head_is_get_without_body_witness :
  exists r,
    Example.reply "GET" "/notes.txt" = Ok r
    /\ body r = Example.bytes_of "hello"
    /\ Example.reply "HEAD" "/notes.txt" = Ok (without_body r).
Proof.
  eexists. split; [reflexivity|]. split; [reflexivity|].
  exact (@head_is_get_without_body Example.platform Example.filesystem
           (Example.req "GET" "/notes.txt") _ eq_refl).
Defined.

End ReplyExamples.

(** ** The serve loop and the script, further *)

Module LoopEnds.
Import HttpServer SocketServer Script Props Props2 Loop.

Section Facts.
Variable pf : Platform.
Variable h : request -> result response.

(** Where a pass of the loop leaves its connection. *)
Lemma handle_request_noblock_ends (id : nat) (c : connection) evs o :
  handle_request_noblock pf h id c = (evs, o) ->
  exists st, one_at_a_time None evs = Some st
             /\ (o = Returns -> st = None)
             /\ (o = NeverReturns -> st = Some id).
Proof.
  unfold handle_request_noblock, get_request.
  destruct (tcp_accept c) as [u|e].
  - destruct (tls c) as [|e|].
    + unfold process_request, finish_request, handle, shutdown_request.
      destruct (handle_one_request pf h id (client c)) as [evs' o'] eqn:E.
      pose proof (@handle_one_request_own _ _ _ _ _ _ E) as Hown.
      destruct o' as [|e|].
      * intros H; injection H as <- <-. exists None.
        split; [|split; [reflexivity | discriminate]].
        cbn [app one_at_a_time]. rewrite Nat.eqb_refl.
        rewrite (@one_at_a_time_app _ _ _ _ Hown). simpl.
        rewrite Nat.eqb_refl. reflexivity.
      * destruct (is_Exception e); intros H; injection H as <- <-;
          exists None; (split; [|split; [reflexivity | discriminate]]);
          cbn [app one_at_a_time]; rewrite Nat.eqb_refl;
          rewrite (@one_at_a_time_app _ _ _ _ Hown); simpl;
          rewrite ?Nat.eqb_refl; reflexivity.
      * intros H; injection H as <- <-. exists (Some id).
        split; [|split; [discriminate | reflexivity]].
        cbn [app one_at_a_time]. rewrite Nat.eqb_refl. exact Hown.
    + destruct (is_OSError e || is_ValueError e) eqn:Ec;
        destruct (is_OSError e) eqn:Eo; try discriminate;
        intros H; injection H as <- <-; simpl; rewrite ?Nat.eqb_refl;
        eexists; (split; [reflexivity|]); split; try discriminate;
        reflexivity.
    + intros H; injection H as <- <-. exists (Some id).
      split; [reflexivity | split; [discriminate | reflexivity]].
  - destruct (is_OSError e); intros H; injection H as <- <-;
      exists None;
      (split; [reflexivity | split; [reflexivity|discriminate]]).
Qed.



End Facts.

End LoopEnds.

Section LoopProperties.
Import HttpServer SocketServer Script Props Props2 Loop LoopEnds.
Variable pf : Platform.
Variable h : request -> result response.

(** X17: whenever the loop waits for the next connection, every
    connection it accepted has been closed; when it is held inside a call
    on a connection, that connection is the only one open. *)
Theorem no_connection_left_open (arrivals : list connection) :
  match snd (serve_forever pf h arrivals) with
  | Waiting =>
      one_at_a_time None (fst (serve_forever pf h arrivals)) = Some None
  | Blocked id =>
      one_at_a_time None (fst (serve_forever pf h arrivals))
      = Some (Some id)
  | Propagated _ => True
  end.
Proof.
  unfold serve_forever. generalize 0.
  induction arrivals as [|c rest IH]; intros id; simpl.
  - reflexivity.
  - destruct (handle_request_noblock pf h id c) as [evs o] eqn:E.
    destruct (@handle_request_noblock_ends pf h _ _ _ _ E)
      as (st & Hst & Hret & Hnever).
    destruct o as [|e|].
    + specialize (IH (S id)).
      destruct (serve_from pf h (S id) rest) as [evs' o'].
      cbn [fst snd] in *. rewrite (@one_at_a_time_app _ _ _ _ Hst).
      rewrite (Hret eq_refl). exact IH.
    + exact I.
    + cbn [fst snd]. rewrite Hst, (Hnever eq_refl). reflexivity.
Qed.



End LoopProperties.

Section LoopExamples.
Import HttpServer SocketServer Script Props Props2.



End LoopExamples.

(** ** The script, further *)

Module ScriptEnds.
Import HttpServer SocketServer Script Props Props2.

(** A start-up in which a call raises ends before [WrapSocket] returns:
    it prints nothing. *)
Lemma startup_raises_prints_nothing (w : World) (e : exn) (line : str) :
  snd (startup w) = Raise e -> ~ In (Print line) (fst (startup w)).
Proof.
  unfold startup, httpd, context, HTTPServer, seq, call, except_reraise.
  cbn [fst snd].
  destruct (socket_socket w) as [[]|];
    [|cbn; intros _ H; intuition discriminate].
  destruct (socket_bind w IP_ADDRESS PORT) as [[]|];
    [|cbn; intros _ H; intuition discriminate].
  destruct (socket_listen w) as [[]|];
    [|cbn; intros _ H; intuition discriminate].
  destruct (load_cert_chain w _ _) as [[]|];
    [|cbn; intros _ H; intuition discriminate].
  destruct (wrap_socket w) as [[]|];
    [|cbn; intros _ H; intuition discriminate].
  cbn. discriminate.
Qed.

(** A start-up that returns made every call with success. *)
Lemma startup_returns (w : World) (t : list effect) (u : unit) :
  startup w = (t, Ok u) ->
  t = startup_events
  /\ socket_socket w = Ok tt /\ socket_bind w IP_ADDRESS PORT = Ok tt
  /\ socket_listen w = Ok tt
  /\ load_cert_chain w (lit "cert.pem") (lit "key.pem") = Ok tt
  /\ wrap_socket w = Ok tt.
Proof.
  unfold startup, httpd, context, HTTPServer, seq, call, except_reraise.
  cbn [fst snd].
  destruct (socket_socket w) as [[]|]; [|discriminate].
  destruct (socket_bind w IP_ADDRESS PORT) as [[]|]; [|discriminate].
  destruct (socket_listen w) as [[]|]; [|discriminate].
  destruct (load_cert_chain w _ _) as [[]|]; [|discriminate].
  destruct (wrap_socket w) as [[]|]; [|discriminate].
  cbn. intros H; injection H as <- _. repeat split.
Qed.

End ScriptEnds.

Section ScriptProperties.
Import HttpServer SocketServer Script Props Props2 ScriptEnds.

(** X21: the line [Serving on ...] is printed, and a connection is
    touched, only after the socket was made, bound and put to listen,
    the certificate chain and key were loaded and the listening socket
    was wrapped, each with success. *)
Theorem nothing_served_before_startup_completes (w : World) (ev : effect) :
  In ev (fst (run w)) ->
  is_serve ev = true \/ (exists line, ev = Print line) ->
  socket_socket w = Ok tt /\ socket_bind w IP_ADDRESS PORT = Ok tt
  /\ socket_listen w = Ok tt
  /\ load_cert_chain w (lit "cert.pem") (lit "key.pem") = Ok tt
  /\ wrap_socket w = Ok tt.
Proof.
  unfold run. destruct (startup w) as [t [u|e]] eqn:Es.
  - intros _ _. destruct (@startup_returns w t u Es) as (_ & H). exact H.
  - cbn [fst]. intros Hin Hev. exfalso.
    apply in_app_or in Hin. destruct Hin as [Hin | [<- | []]].
    + destruct Hev as [Hs | (line & ->)].
      * pose proof (ScriptFacts.startup_no_serve w) as Hn.
        rewrite Es in Hn. cbn [fst] in Hn.
        rewrite forallb_forall in Hn. specialize (Hn _ Hin).
        rewrite Hs in Hn. discriminate.
      * apply (@startup_raises_prints_nothing w e line).
        -- rewrite Es. reflexivity.
        -- rewrite Es. exact Hin.
    + destruct Hev as [Hs | (line & Hl)]; discriminate.
Qed.

End ScriptProperties.

Section ScriptExamples.
Import HttpServer SocketServer Script Props Props2.

Lemma nothing_served_before_startup_completes_witness :
  In (Serve (Accepted 0)) (fst (run (ExampleWorld.world [Clients.leaving])))
  /\ wrap_socket (ExampleWorld.world [Clients.leaving]) = Ok tt.
Proof.
  assert (Hin : In (Serve (Accepted 0))
                  (fst (run (ExampleWorld.world [Clients.leaving])))).
  { cbn. auto 10. }
  split; [exact Hin|].
  exact (proj2 (proj2 (proj2 (proj2
    (@nothing_served_before_startup_completes
       (ExampleWorld.world [Clients.leaving]) (Serve (Accepted 0))
       Hin (or_introl eq_refl)))))).
Defined.

End ScriptExamples.
